(** * pdf-parse: the serverless invoice pipeline

    A shallow embedding of the JavaScript units of the repository

    - the Mail Ingestor            ([MailIngestor.handler]),
    - the Document Extractor       ([Backend.processPDFWithGemini]),
    - the Record Store wrapper     ([Backend.saveToDynamo]),
    - the Pipeline Orchestrator    ([Backend.processEmail]),
    - the Query Service            ([ApiBackend.handler]),

    followed by the properties of the specification, stated over these
    definitions.

    Conventions of the embedding.

    - A JavaScript string is the list of its UTF-16 code units ([jsstring]);
      [lit] embeds an ASCII literal.
    - A JavaScript value that can occur in an event, in a decoded JSON
      document or in a stored item is a [JSValue]; property reads follow the
      language ([getProp] throws a TypeError on [undefined] and [null]).
    - An [async] function is a computation [Eff S A]: it takes the state of
      the external services, and either returns a value (the promise
      resolves) or throws (the promise rejects), together with the new state.
    - What the platform and the external services answer is not decided by
      the repository: the built-ins ([Runtime]) and the services ([World] of
      each unit) are parameters of every definition.
    - [console.log], [console.warn] and [console.error] have no effect on any
      value a handler returns or stores; they are left out. *)

From Stdlib Require Import ZArith NArith List String Ascii DecimalString Lia.
From stdpp Require Import base option list gmap.

Set Warnings "-register-all".

(* ================================================================== *)
(** * The JavaScript fragment the handlers use *)
(* ================================================================== *)

Module JS.

(** ** Strings *)

Abbreviation jsstring := (list N).

Definition lit (s : string) : jsstring :=
  map N_of_ascii (list_ascii_of_string s).

Fixpoint str_eqb (a b : jsstring) : bool :=
  match a, b with
  | [], [] => true
  | x :: a', y :: b' => N.eqb x y && str_eqb a' b'
  | _, _ => false
  end.

(** [s.startsWith(p)] *)
Fixpoint startsWith (s p : jsstring) : bool :=
  match p, s with
  | [], _ => true
  | y :: p', x :: s' => N.eqb x y && startsWith s' p'
  | _ :: _, [] => false
  end.

(** [s.endsWith(p)] *)
Definition endsWith (s p : jsstring) : bool :=
  (length p <=? length s)%nat && str_eqb (drop (length s - length p) s) p.

(** [s.includes(p)] *)
Fixpoint includes (s p : jsstring) : bool :=
  startsWith s p ||
  match s with
  | [] => false
  | _ :: s' => includes s' p
  end.

(** [s.substring(0, n)] *)
Definition substring0 (n : nat) (s : jsstring) : jsstring := take n s.

(** [s.replace(/\+/g, ' ')] *)
Definition replace_plus_with_space (s : jsstring) : jsstring :=
  map (fun c => if N.eqb c 43 then 32%N else c) s.

(** [s.toLowerCase()] on the ASCII letters.  The other case mappings of
    Unicode produce no code unit among [.], [p], [d] and [f], so they do
    not change whether the lowered string ends in [.pdf], which is the
    only use the repository makes of the function. *)
Definition toLowerCase (s : jsstring) : jsstring :=
  map (fun c => if (65 <=? c)%N && (c <=? 90)%N then (c + 32)%N else c) s.

(** Decimal rendering of an integer-valued number, as a template literal
    prints [Date.now()] and an array index. *)
Definition Z_to_jsstring (z : Z) : jsstring :=
  lit (NilZero.string_of_int (Z.to_int z)).

Fixpoint join (sep : jsstring) (l : list jsstring) : jsstring :=
  match l with
  | [] => []
  | [x] => x
  | x :: r => x ++ sep ++ join sep r
  end.

(** ** Values *)

(** An IEEE double: [(-1)^neg * m * 2^e], the two zeros, the infinities
    and NaN. *)
Inductive Number :=
| NaN
| Infinity (neg : bool)
| Zero (neg : bool)
| Finite (neg : bool) (m : positive) (e : Z).

Definition Number_of_nat (n : nat) : Number :=
  match n with
  | O => Zero false
  | S _ => Finite false (Pos.of_nat n) 0
  end.

Inductive JSValue :=
| JUndefined
| JNull
| JBool (b : bool)
| JNum (n : Number)
| JStr (s : jsstring)
| JArr (elems : list JSValue) (props : gmap jsstring JSValue)
| JObj (props : gmap jsstring JSValue).

(** ToBoolean *)
Definition truthy (v : JSValue) : bool :=
  match v with
  | JUndefined | JNull => false
  | JBool b => b
  | JNum NaN | JNum (Zero _) => false
  | JNum _ => true
  | JStr [] => false
  | JStr _ => true
  | JArr _ _ | JObj _ => true
  end.

(** [v === 'literal'] *)
Definition strict_eq_str (v : JSValue) (s : jsstring) : bool :=
  match v with
  | JStr t => str_eqb t s
  | _ => false
  end.

(** An object literal [{ k1: v1, ..., kn: vn }]: later keys win. *)
Definition object (fields : list (jsstring * JSValue)) : JSValue :=
  JObj (foldl (fun m kv => <[kv.1 := kv.2]> m) ∅ fields).

(** ** Errors and completions *)

Record JsError := {
  name : jsstring;
  message : jsstring;
  stack : option jsstring
}.

Inductive Result (A : Type) :=
| Return (a : A)
| Throw (e : JsError).
Arguments Return {A} a.
Arguments Throw {A} e.

Definition bindR {A B} (c : Result A) (k : A -> Result B) : Result B :=
  match c with
  | Return a => k a
  | Throw e => Throw e
  end.

(** [try { body } catch (e) { handler }] around code without effects *)
Definition tryCatchR {A} (body : Result A) (handler : JsError -> Result A) : Result A :=
  match body with
  | Return a => Return a
  | Throw e => handler e
  end.

(** ** Built-ins of the platform

    [JSON.parse], [JSON.stringify], Number-to-String conversion, UTF-8
    decoding of a Buffer and the stack trace V8 attaches to a new error
    object are the platform's, not the repository's. *)
Record Runtime := {
  JSON_parse : jsstring -> Result JSValue;
  JSON_stringify : JSValue -> jsstring;
  Number_toString : Number -> jsstring;
  Buffer_toString_utf8 : list Byte.byte -> jsstring;
  captureStack : jsstring -> jsstring -> option jsstring
}.

(** [new Error(msg)], and the errors the language itself throws. *)
Definition newError (rt : Runtime) (kind msg : jsstring) : JsError :=
  {| name := kind; message := msg; stack := captureStack rt kind msg |}.

Definition Error (rt : Runtime) (msg : jsstring) : JsError :=
  newError rt (lit "Error") msg.
Definition TypeError (rt : Runtime) (msg : jsstring) : JsError :=
  newError rt (lit "TypeError") msg.
Definition ReferenceError (rt : Runtime) (msg : jsstring) : JsError :=
  newError rt (lit "ReferenceError") msg.
Definition URIError (rt : Runtime) (msg : jsstring) : JsError :=
  newError rt (lit "URIError") msg.

(** ** Property reads and writes *)

(** A canonical array index: the decimal numeral of [i], no leading zero. *)
Definition index_of_key (k : jsstring) : option nat :=
  let digit (acc : option N) (c : N) : option N :=
    match acc with
    | Some n => if (48 <=? c)%N && (c <=? 57)%N then Some (10 * n + (c - 48))%N else None
    | None => None
    end in
  match foldl digit (Some 0%N) k with
  | Some n =>
      if str_eqb (Z_to_jsstring (Z.of_N n)) k && (n <? 4294967295)%N
      then Some (N.to_nat n) else None
  | None => None
  end.

(** The entries [0: e0, 1: e1, ...] of an array-like value. *)
Definition index_entries (elems : list JSValue) : gmap jsstring JSValue :=
  list_to_map (imap (fun i e => (Z_to_jsstring (Z.of_nat i), e)) elems).

Definition orUndefined (o : option JSValue) : JSValue := default JUndefined o.

(** The value of [v.k] where [v] is neither [undefined] nor [null].  Own
    data properties only: the values of this development come from JSON
    documents and service answers, and the handlers read no inherited
    member by name. *)
Definition getOwn (v : JSValue) (k : jsstring) : JSValue :=
  match v with
  | JUndefined | JNull | JBool _ | JNum _ => JUndefined
  | JStr s =>
      if str_eqb k (lit "length") then JNum (Number_of_nat (length s))
      else match index_of_key k with
           | Some i => match s !! i with Some c => JStr [c] | None => JUndefined end
           | None => JUndefined
           end
  | JArr elems props =>
      if str_eqb k (lit "length") then JNum (Number_of_nat (length elems))
      else match index_of_key k with
           | Some i => orUndefined (elems !! i)
           | None => orUndefined (props !! k)
           end
  | JObj props => orUndefined (props !! k)
  end.

(** [v.k] and [v[k]] *)
Definition getProp (rt : Runtime) (v : JSValue) (k : jsstring) : Result JSValue :=
  match v with
  | JUndefined =>
      Throw (TypeError rt (lit "Cannot read properties of undefined (reading '" ++ k ++ lit "')"))
  | JNull =>
      Throw (TypeError rt (lit "Cannot read properties of null (reading '" ++ k ++ lit "')"))
  | _ => Return (getOwn v k)
  end.

(** [v && v.k1 && v.k1.k2 && ...]: each read is guarded by the truth of
    its object, so none throws. *)
Fixpoint andChain (v : JSValue) (path : list jsstring) : JSValue :=
  match path with
  | [] => v
  | k :: path' => if truthy v then andChain (getOwn v k) path' else v
  end.

(** [v.k1.k2. ... .kn] *)
Fixpoint getPath (rt : Runtime) (v : JSValue) (path : list jsstring) : Result JSValue :=
  match path with
  | [] => Return v
  | k :: path' => bindR (getProp rt v k) (fun v' => getPath rt v' path')
  end.

(** ToString, as a template literal applies it. *)
Fixpoint ToString (rt : Runtime) (v : JSValue) : jsstring :=
  match v with
  | JUndefined => lit "undefined"
  | JNull => lit "null"
  | JBool true => lit "true"
  | JBool false => lit "false"
  | JNum n => Number_toString rt n
  | JStr s => s
  | JArr elems _ =>
      join (lit ",")
        (map (fun e => match e with
                       | JUndefined | JNull => []
                       | _ => ToString rt e
                       end) elems)
  | JObj _ => lit "[object Object]"
  end.

Definition typeofName (v : JSValue) : jsstring :=
  match v with
  | JUndefined => lit "undefined"
  | JBool _ => lit "boolean"
  | JNum _ => lit "number"
  | JStr _ => lit "string"
  | JNull | JArr _ _ | JObj _ => lit "object"
  end.

(** [v.k = x] in strict code (every file of the repository is an ES
    module), for a name [k] that is neither an array index nor [length]. *)
Definition setProp (rt : Runtime) (v : JSValue) (k : jsstring) (x : JSValue) : Result JSValue :=
  match v with
  | JObj props => Return (JObj (<[k := x]> props))
  | JArr elems props => Return (JArr elems (<[k := x]> props))
  | JUndefined =>
      Throw (TypeError rt (lit "Cannot set properties of undefined (setting '" ++ k ++ lit "')"))
  | JNull =>
      Throw (TypeError rt (lit "Cannot set properties of null (setting '" ++ k ++ lit "')"))
  | JBool _ | JNum _ | JStr _ =>
      Throw (TypeError rt (lit "Cannot create property '" ++ k ++ lit "' on "
                           ++ typeofName v ++ lit " '" ++ ToString rt v ++ lit "'"))
  end.

(** The own enumerable properties an object spread [{...v}] copies. *)
Definition spread (v : JSValue) : gmap jsstring JSValue :=
  match v with
  | JObj props => props
  | JArr elems props => props ∪ index_entries elems
  | JStr s => index_entries (map (fun c => JStr [c]) s)
  | JUndefined | JNull | JBool _ | JNum _ => ∅
  end.

(** ** decodeURIComponent

    The string is cut into plain code units and [%XX] escapes; a run of
    escapes must spell the UTF-8 encoding of one code point, which is
    appended as one or two UTF-16 code units.  Every malformation is a
    URIError. *)

Definition hexval (c : N) : option N :=
  if (48 <=? c)%N && (c <=? 57)%N then Some (c - 48)%N
  else if (65 <=? c)%N && (c <=? 70)%N then Some (c - 55)%N
  else if (97 <=? c)%N && (c <=? 102)%N then Some (c - 87)%N
  else None.

Inductive UriToken :=
| Plain (c : N)
| Escaped (octet : N).

Fixpoint uri_tokens (s : jsstring) : option (list UriToken) :=
  match s with
  | [] => Some []
  | c :: rest =>
      if N.eqb c 37 then
        match rest with
        | h :: l :: rest' =>
            match hexval h, hexval l with
            | Some a, Some b =>
                option_map (cons (Escaped (16 * a + b)%N)) (uri_tokens rest')
            | _, _ => None
            end
        | _ => None
        end
      else option_map (cons (Plain c)) (uri_tokens rest)
  end.

(** The payload bits of a continuation octet [10xxxxxx]. *)
Definition continuation (b : N) : option N :=
  if N.eqb (N.land b 192) 128 then Some (N.land b 63) else None.

Definition code_units (v : N) : jsstring :=
  if (v <? 65536)%N then [v]
  else let v' := (v - 65536)%N in
       [(55296 + N.shiftr v' 10)%N; (56320 + N.land v' 1023)%N].

Definition scalar_in (lo hi v : N) : bool :=
  (lo <=? v)%N && (v <=? hi)%N && negb ((55296 <=? v)%N && (v <=? 57343)%N).

Fixpoint utf8_units (ts : list UriToken) : option jsstring :=
  match ts with
  | [] => Some []
  | Plain c :: r => option_map (cons c) (utf8_units r)
  | Escaped b :: r =>
      if (b <? 128)%N then option_map (cons b) (utf8_units r)
      else if (192 <=? b)%N && (b <? 224)%N then
        match r with
        | Escaped b1 :: r' =>
            match continuation b1 with
            | Some c1 =>
                let v := (N.shiftl (N.land b 31) 6 + c1)%N in
                if scalar_in 128 2047 v
                then option_map (app (code_units v)) (utf8_units r')
                else None
            | None => None
            end
        | _ => None
        end
      else if (224 <=? b)%N && (b <? 240)%N then
        match r with
        | Escaped b1 :: Escaped b2 :: r' =>
            match continuation b1, continuation b2 with
            | Some c1, Some c2 =>
                let v := (N.shiftl (N.land b 15) 12 + N.shiftl c1 6 + c2)%N in
                if scalar_in 2048 65535 v
                then option_map (app (code_units v)) (utf8_units r')
                else None
            | _, _ => None
            end
        | _ => None
        end
      else if (240 <=? b)%N && (b <? 248)%N then
        match r with
        | Escaped b1 :: Escaped b2 :: Escaped b3 :: r' =>
            match continuation b1, continuation b2, continuation b3 with
            | Some c1, Some c2, Some c3 =>
                let v := (N.shiftl (N.land b 7) 18 + N.shiftl c1 12
                          + N.shiftl c2 6 + c3)%N in
                if scalar_in 65536 1114111 v
                then option_map (app (code_units v)) (utf8_units r')
                else None
            | _, _, _ => None
            end
        | _ => None
        end
      else None
  end.

Definition decodeURIComponent (rt : Runtime) (s : jsstring) : Result jsstring :=
  match uri_tokens s with
  | Some ts =>
      match utf8_units ts with
      | Some r => Return r
      | None => Throw (URIError rt (lit "URI malformed"))
      end
  | None => Throw (URIError rt (lit "URI malformed"))
  end.

(** ** Asynchronous functions

    [Eff S A]: a computation over the state [S] of the external services
    that returns an [A] or throws.  The effects made before a throw stay. *)

Definition Eff (S A : Type) : Type := S -> Result A * S.

Definition ret {S A} (a : A) : Eff S A := fun s => (Return a, s).

Definition throw {S A} (e : JsError) : Eff S A := fun s => (Throw e, s).

Definition liftR {S A} (r : Result A) : Eff S A := fun s => (r, s).

Definition bind {S A B} (c : Eff S A) (k : A -> Eff S B) : Eff S B :=
  fun s =>
    match c s with
    | (Return a, s') => k a s'
    | (Throw e, s') => (Throw e, s')
    end.

(** [try { body } catch (e) { handler }] *)
Definition tryCatch {S A} (body : Eff S A) (handler : JsError -> Eff S A) : Eff S A :=
  fun s =>
    match body s with
    | (Return a, s') => (Return a, s')
    | (Throw e, s') => handler e s'
    end.

(** Running pending tasks one after the other, in array order. *)
Fixpoint runAll {S A} (tasks : list (Eff S A)) : Eff S (list A) :=
  match tasks with
  | [] => ret []
  | t :: tasks' =>
      bind t (fun a => bind (runAll tasks') (fun r => ret (a :: r)))
  end.

(** The first call, in array order, that rejected before it suspended. *)
Fixpoint firstRejected {S A} (calls : list (Result (Eff S A))) : option JsError :=
  match calls with
  | [] => None
  | Throw e :: _ => Some e
  | Return _ :: calls' => firstRejected calls'
  end.

Fixpoint pending {S A} (calls : list (Result (Eff S A))) : list (Eff S A) :=
  match calls with
  | [] => []
  | Return t :: calls' => t :: pending calls'
  | Throw _ :: calls' => pending calls'
  end.

(** [await Promise.all(calls)], where each call of an [async] function is
    either rejected already (it threw before its first [await]) or
    pending on its first request.  A call rejected already rejects the
    whole: the continuation runs before any pending request completes, so
    no pending task contributes an effect to the invocation.  Otherwise
    the tasks complete, here one after the other in array order.  The
    tasks of the repository share nothing but the clock and the
    append-only logs of the services, and the clock of a [World] is an
    arbitrary sequence: the readings a task gets under another
    interleaving are those of this run under a re-indexed clock. *)
Definition Promise_all {S A} (calls : list (Result (Eff S A))) : Eff S (list A) :=
  match firstRejected calls with
  | Some e => throw e
  | None => runAll (pending calls)
  end.

End JS.

Notation "'let?' x := c 'in' k" :=
  (JS.bindR c (fun x => k))
  (at level 10, x name, c at level 100, k at level 200, only parsing).
Notation "'let!' x := c 'in' k" :=
  (JS.bind c (fun x => k))
  (at level 10, x name, c at level 100, k at level 200, only parsing).

(* ================================================================== *)
(** * src/backend: the Document Extractor, the Record Store wrapper and
      the Pipeline Orchestrator *)
(* ================================================================== *)

Module Backend.
Import JS.

(** ** The services the unit calls *)

(** What [s3.getObject(...).promise()] resolves to.  [Body] is [None]
    when the answer carries no Buffer. *)
Record S3Object := {
  Body : option (list Byte.byte);
  ContentLength : JSValue;
  ContentType : JSValue
}.

(** [result.response] of the inference SDK: its data members, and what a
    call of its method [text()] does. *)
Record GenerateContentResponse := {
  candidates : JSValue;
  text : Result jsstring;
  promptFeedback : JSValue
}.

Record GenerateContentResult := {
  response : option GenerateContentResponse
}.

Record World := {
  (** the value bound to the module constant [GEMINI_API_KEY]: in the
      source a non-empty string literal, a credential that is not
      repeated here *)
  GEMINI_API_KEY : jsstring;
  (** the n-th reading of the wall clock, in milliseconds *)
  clock : nat -> Z;
  (** [Date.prototype.toISOString] of a time value *)
  toISOString : Z -> jsstring;
  s3_getObject : JSValue -> jsstring -> Result S3Object;
  (** the request payload is the fixed prompt, the fixed schema and the
      document's bytes *)
  generateContent : list Byte.byte -> Result GenerateContentResult;
  (** whether the table refuses an item, and with which error *)
  db_put_fault : JSValue -> option JsError
}.

(** The clock readings made so far, every item handed to [db.put], and
    the items the table accepted, oldest first. *)
Record State := {
  reads : nat;
  attempted : list JSValue;
  stored : list JSValue
}.

Definition Date_now (w : World) : Eff State Z :=
  fun st =>
    (Return (clock w (reads st)),
     {| reads := S (reads st); attempted := attempted st; stored := stored st |}).

(** [new Date().toISOString()] *)
Definition Date_new_toISOString (w : World) : Eff State jsstring :=
  let! t := Date_now w in
  ret (toISOString w t).

(** [db.put(params).promise()] *)
Definition db_put (w : World) (item : JSValue) : Eff State unit :=
  fun st =>
    match db_put_fault w item with
    | Some e =>
        (Throw e,
         {| reads := reads st; attempted := attempted st ++ [item]; stored := stored st |})
    | None =>
        (Return tt,
         {| reads := reads st; attempted := attempted st ++ [item];
            stored := stored st ++ [item] |})
    end.

(** ** pdfProcessorGenAI.js *)

Inductive GenerativeModel := Gemini_1_5_flash_latest.

(** [const genAI = GEMINI_API_KEY ? new GoogleGenerativeAI(...) : null]
    and [const modelInstance = genAI ? genAI.getGenerativeModel(...) : null] *)
Definition modelInstance (w : World) : option GenerativeModel :=
  if truthy (JStr (GEMINI_API_KEY w)) then Some Gemini_1_5_flash_latest else None.

(** [v === 0] *)
Definition strict_eq_zero (v : JSValue) : bool :=
  match v with
  | JNum (Zero _) => true
  | _ => false
  end.

(** The rest of the condition of line 153, once [response] is truthy:
    [!response.candidates || response.candidates.length === 0 ||
     !response.candidates[0].content || !response.candidates[0].content.parts ||
     response.candidates[0].content.parts.length === 0]. *)
Definition candidatesInvalid (rt : Runtime) (r : GenerateContentResponse) : Result bool :=
  if negb (truthy (candidates r)) then Return true else
  let? len := getProp rt (candidates r) (lit "length") in
  if strict_eq_zero len then Return true else
  let? content := getPath rt (candidates r) [lit "0"; lit "content"] in
  if negb (truthy content) then Return true else
  let? parts := getProp rt content (lit "parts") in
  if negb (truthy parts) then Return true else
  let? plen := getProp rt parts (lit "length") in
  Return (strict_eq_zero plen).

(** The [try] block, lines 148-182. *)
Definition tryBlock (rt : Runtime) (w : World)
    (pdfBuffer : list Byte.byte) (s3Bucket : JSValue) (s3Key : jsstring)
  : Eff State JSValue :=
  let! result := liftR (generateContent w pdfBuffer) in
  match response result with
  | None =>
      throw (Error rt (lit "Received an invalid or empty response structure from Gemini API."))
  | Some resp =>
      let! invalid := liftR (candidatesInvalid rt resp) in
      if (invalid : bool) then
        throw (Error rt (lit "Received an invalid or empty response structure from Gemini API."))
      else
        let! jsonString := liftR (text resp) in
        let! extractedData :=
          tryCatch (liftR (JSON_parse rt jsonString))
                   (fun parseError =>
                      throw (Error rt (lit "Failed to parse JSON response from Gemini AI."))) in
        let! d1 := liftR (setProp rt extractedData (lit "S3Bucket") s3Bucket) in
        let! d2 := liftR (setProp rt d1 (lit "S3Key") (JStr s3Key)) in
        let! d3 := liftR (setProp rt d2 (lit "processingEngine")
                            (JStr (lit "Gemini-1.5-Flash-Latest"))) in
        let! now := Date_new_toISOString w in
        let! d4 := liftR (setProp rt d3 (lit "extractionTimestamp") (JStr now)) in
        ret d4
  end.

(** The identifier [result] inside the [catch] block.  [const result] is
    declared in the [try] block (line 150); the [catch] block is not
    nested in it, and neither the function, the module nor the global
    object binds the name.  Evaluating it throws. *)
Definition result_in_catch (rt : Runtime) : Result GenerateContentResult :=
  Throw (ReferenceError rt (lit "result is not defined")).

(** [result && result.response && result.response.promptFeedback &&
     result.response.promptFeedback.blockReason] *)
Definition blockReason (rt : Runtime) (result : GenerateContentResult) : Result JSValue :=
  match response result with
  | None => Return JUndefined
  | Some resp =>
      if truthy (promptFeedback resp)
      then getProp rt (promptFeedback resp) (lit "blockReason")
      else Return (promptFeedback resp)
  end.

(** [s3Key || 'unknown'] *)
Definition keyOrUnknown (s3Key : jsstring) : jsstring :=
  if truthy (JStr s3Key) then s3Key else lit "unknown".

(** The [catch (err)] block, lines 183-194.  It always throws. *)
Definition catchBlock (rt : Runtime) (s3Key : jsstring) (err : JsError)
  : Result JSValue :=
  let? blocked :=
    (if includes (message err) (lit "SAFETY") then Return true
     else let? result := result_in_catch rt in
          let? reason := blockReason rt result in
          Return (truthy reason)) in
  if (blocked : bool) then
    (* the argument of console.error, then the template of the message *)
    let? result := result_in_catch rt in
    let? reason := blockReason rt result in
    Throw (Error rt (lit "Gemini processing blocked for document " ++ keyOrUnknown s3Key
                     ++ lit ". Reason: "
                     ++ (if truthy reason then ToString rt reason else lit "Safety Policy")))
  else
    Throw (Error rt (lit "Gemini processing failed for document " ++ keyOrUnknown s3Key
                     ++ lit ". Error: " ++ message err)).

Definition processPDFWithGemini (rt : Runtime) (w : World)
    (pdfBuffer : list Byte.byte) (s3Bucket : JSValue) (s3Key : jsstring)
  : Eff State JSValue :=
  match modelInstance w with
  | None =>
      throw (Error rt (lit "Gemini model is not initialized. Check API Key and SDK setup."))
  | Some _ =>
      tryCatch (tryBlock rt w pdfBuffer s3Bucket s3Key)
               (fun err => liftR (catchBlock rt s3Key err))
  end.

(** ** dynamo.js *)

(** [a || b] on values *)
Definition orElse (a b : JSValue) : JSValue := if truthy a then a else b.

(** [Object.keys(data)], evaluated for the log line of line 212, before
    the [try]: it throws on [undefined] and [null]; the keys go to the
    log only. *)
Definition Object_keys (rt : Runtime) (data : JSValue) : Result unit :=
  match data with
  | JUndefined | JNull =>
      Throw (TypeError rt (lit "Cannot convert undefined or null to object"))
  | _ => Return tt
  end.

Definition saveToDynamo (rt : Runtime) (w : World) (data : JSValue) : Eff State JSValue :=
  let! _ := liftR (Object_keys rt data) in
  let! _ := tryCatch (db_put w data) (fun error => throw error) in
  let! ticket := liftR (getProp rt data (lit "TicketId")) in
  let! invoice := liftR (if truthy ticket then Return JUndefined
                         else getProp rt data (lit "invoiceId")) in
  ret (object [(lit "success", JBool true); (lit "id", orElse ticket invoice)]).

(** ** handler.js *)

(** The object each record's callback resolves to:
    [{ success: true, key, ticketId }] or
    [{ success: false, key, error, ticketId }]. *)
Record ItemResult := {
  success : bool;
  key : jsstring;
  error : option jsstring;
  ticketId : JSValue
}.

Definition ItemResult_toJS (r : ItemResult) : JSValue :=
  object ([(lit "success", JBool (success r)); (lit "key", JStr (key r))]
          ++ match error r with
             | Some m => [(lit "error", JStr m)]
             | None => []
             end
          ++ [(lit "ticketId", ticketId r)]).

Record Response := {
  statusCode : Z;
  body : jsstring
}.

(** [{ ...extractedData, TicketId: extractedData.invoiceId || `fallback-${key}-${Date.now()}` }] *)
Definition itemToSave (rt : Runtime) (w : World) (extractedData : JSValue) (key : jsstring)
  : Eff State JSValue :=
  let! invoiceId := liftR (getProp rt extractedData (lit "invoiceId")) in
  let! ticket :=
    (if truthy invoiceId then ret invoiceId
     else let! now := Date_now w in
          ret (JStr (lit "fallback-" ++ key ++ lit "-" ++ Z_to_jsstring now))) in
  ret (JObj (<[lit "TicketId" := ticket]> (spread extractedData))).

(** The statements of the [try] block after the fetch, lines 24-50. *)
Definition afterFetch (rt : Runtime) (w : World) (bucket : JSValue) (key : jsstring)
    (s3ObjectData : S3Object) : Eff State ItemResult :=
  match Body s3ObjectData with
  | None => throw (Error rt (lit "S3 object body is not a Buffer."))
  | Some pdfBuffer =>
      let! extractedData := processPDFWithGemini rt w pdfBuffer bucket key in
      let! item := itemToSave rt w extractedData key in
      let! _ := saveToDynamo rt w item in
      let! ticket := liftR (getProp rt item (lit "TicketId")) in
      ret {| success := true; key := key; error := None; ticketId := ticket |}
  end.

(** [c ? c : null] *)
Definition orNull (v : JSValue) : JSValue := if truthy v then v else JNull.

(** The Error Record of lines 56-66. *)
Definition errorRecord (errorTicketId : jsstring) (bucket : JSValue) (key : jsstring)
    (s3ObjectData : option S3Object) (error : JsError) (timestamp : jsstring) : JSValue :=
  object
    [ (lit "TicketId", JStr errorTicketId);
      (lit "Status", JStr (lit "Error-ProcessingFailed"));
      (lit "S3Bucket", bucket);
      (lit "S3Key", JStr key);
      (lit "ErrorDetails", JStr (message error));
      (lit "ErrorStack",
         match stack error with
         | Some (c :: s) => JStr (substring0 1000 (c :: s))
         | Some [] | None => JNull
         end);
      (lit "FileSize",
         match s3ObjectData with
         | Some o => orNull (ContentLength o)
         | None => JNull
         end);
      (lit "FileContentType",
         match s3ObjectData with
         | Some o => orNull (ContentType o)
         | None => JNull
         end);
      (lit "Timestamp", JStr timestamp) ].

(** The [catch (error)] block, lines 52-72.  [s3ObjectData] is the
    [let] of line 18: still [undefined] ([None]) when the fetch threw. *)
Definition onFailure (rt : Runtime) (w : World) (bucket : JSValue) (key : jsstring)
    (s3ObjectData : option S3Object) (error : JsError) : Eff State ItemResult :=
  let! now := Date_now w in
  let errorTicketId := lit "error-" ++ key ++ lit "-" ++ Z_to_jsstring now in
  let! _ :=
    tryCatch
      (let! timestamp := Date_new_toISOString w in
       let! _ := saveToDynamo rt w
                   (errorRecord errorTicketId bucket key s3ObjectData error timestamp) in
       ret tt)
      (fun dbError => ret tt) in
  ret {| success := false; key := key; error := Some (message error);
         ticketId := JStr errorTicketId |}.

(** The callback from its [try] on, once [bucket] and [key] are bound. *)
Definition processObject (rt : Runtime) (w : World) (bucket : JSValue) (key : jsstring)
  : Eff State ItemResult :=
  fun st =>
    match s3_getObject w bucket key with
    | Throw error => onFailure rt w bucket key None error st
    | Return s3ObjectData =>
        tryCatch (afterFetch rt w bucket key s3ObjectData)
                 (onFailure rt w bucket key (Some s3ObjectData)) st
    end.

(** [v.replace(/\+/g, ' ')] on whatever [record.s3.object.key] holds. *)
Definition call_replace (rt : Runtime) (v : JSValue) : Result jsstring :=
  match v with
  | JStr s => Return (replace_plus_with_space s)
  | JUndefined =>
      Throw (TypeError rt (lit "Cannot read properties of undefined (reading 'replace')"))
  | JNull =>
      Throw (TypeError rt (lit "Cannot read properties of null (reading 'replace')"))
  | _ => Throw (TypeError rt (lit "record.s3.object.key.replace is not a function"))
  end.

(** Lines 14-16: what the callback computes before its [try]. *)
Definition bucketAndKey (rt : Runtime) (record : JSValue) : Result (JSValue * jsstring) :=
  let? bucket := getPath rt record [lit "s3"; lit "bucket"; lit "name"] in
  let? rawKey := getPath rt record [lit "s3"; lit "object"; lit "key"] in
  let? replaced := call_replace rt rawKey in
  let? key := decodeURIComponent rt replaced in
  Return (bucket, key).

(** One call of the callback [async (record) => ...]: rejected before
    its first [await], or pending. *)
Definition processRecord (rt : Runtime) (w : World) (record : JSValue)
  : Result (Eff State ItemResult) :=
  let? bk := bucketAndKey rt record in
  Return (processObject rt w bk.1 bk.2).

(** [v.map(f)] on whatever [event.Records] holds. *)
Definition call_map {B} (rt : Runtime) (v : JSValue) (f : JSValue -> B) : Result (list B) :=
  match v with
  | JArr elems _ => Return (map f elems)
  | JUndefined =>
      Throw (TypeError rt (lit "Cannot read properties of undefined (reading 'map')"))
  | JNull =>
      Throw (TypeError rt (lit "Cannot read properties of null (reading 'map')"))
  | _ => Throw (TypeError rt (lit "event.Records.map is not a function"))
  end.

Definition completedBody (rt : Runtime) (results : list ItemResult) : jsstring :=
  JSON_stringify rt
    (object [ (lit "message", JStr (lit "Processing completed."));
              (lit "results", JArr (map ItemResult_toJS results) ∅) ]).

Definition criticalBody (rt : Runtime) (error : JsError) : jsstring :=
  JSON_stringify rt
    (object [ (lit "message", JStr (lit "Critical error during S3 event processing."));
              (lit "error", JStr (message error)) ]).

Definition processEmail (rt : Runtime) (w : World) (event : JSValue) : Eff State Response :=
  let! records := liftR (getProp rt event (lit "Records")) in
  let! processingPromises := liftR (call_map rt records (processRecord rt w)) in
  tryCatch
    (let! results := Promise_all processingPromises in
     ret {| statusCode := 200; body := completedBody rt results |})
    (fun error =>
       ret {| statusCode := 500; body := criticalBody rt error |}).

End Backend.

(* ================================================================== *)
(** * src/api_backend/index.js: the Query Service *)
(* ================================================================== *)

Module ApiBackend.
Import JS.

(** The table behind [db]: the item stored under a key value, whether a
    read of that key fails, and what a scan answers ([data.Items] and
    [data.Count]). *)
Record World := {
  table : JSValue -> option (gmap jsstring JSValue);
  db_get_fault : JSValue -> option JsError;
  db_scan : Result (JSValue * JSValue)
}.

Record Response := {
  statusCode : Z;
  headers : list (jsstring * jsstring);
  body : jsstring
}.

(** [db.get({ TableName, Key: { TicketId: ticketId } }).promise()] *)
Definition db_get (w : World) (ticketId : JSValue) : Result JSValue :=
  match db_get_fault w ticketId with
  | Some e => Throw e
  | None =>
      Return (match table w ticketId with
              | Some item => object [(lit "Item", JObj item)]
              | None => object []
              end)
  end.

Definition createResponse (rt : Runtime) (statusCode : Z) (body : JSValue) : Response :=
  {| statusCode := statusCode;
     headers :=
       [ (lit "Content-Type", lit "application/json");
         (lit "Access-Control-Allow-Origin", lit "*");
         (lit "Access-Control-Allow-Methods", lit "GET,OPTIONS");
         (lit "Access-Control-Allow-Headers",
          lit "Content-Type,X-Amz-Date,Authorization,X-Api-Key,X-Amz-Security-Token") ];
     body := JSON_stringify rt body |}.

(** The branch of lines 42-59. *)
Definition lookupById (rt : Runtime) (w : World) (ticketId : JSValue) : Result Response :=
  let? data := db_get w ticketId in
  let? item := getProp rt data (lit "Item") in
  if truthy item then Return (createResponse rt 200 item)
  else Return (createResponse rt 404
                 (object [(lit "error",
                           JStr (lit "Invoice with TicketId " ++ ToString rt ticketId
                                 ++ lit " not found."))])).

(** The branch of lines 62-82. *)
Definition listAll (rt : Runtime) (w : World) : Result Response :=
  let? data := db_scan w in
  Return (createResponse rt 200
            (object [ (lit "items", data.1);
                      (lit "count", data.2);
                      (lit "message",
                       JStr (lit "Full scan executed. Implement pagination for production.")) ])).

Definition handler (rt : Runtime) (w : World) (event : JSValue) : Result Response :=
  let? httpMethod := getProp rt event (lit "httpMethod") in
  let? path := getProp rt event (lit "path") in
  if strict_eq_str httpMethod (lit "OPTIONS") then
    Return (createResponse rt 200
              (object [(lit "message", JStr (lit "CORS preflight successful"))]))
  else if negb (strict_eq_str httpMethod (lit "GET")) then
    Return (createResponse rt 405
              (object [(lit "error",
                        JStr (lit "Unsupported method: " ++ ToString rt httpMethod))]))
  else
    tryCatchR
      (let pathParameters := getOwn event (lit "pathParameters") in
       let queryStringParameters := getOwn event (lit "queryStringParameters") in
       let ticketId := andChain pathParameters [lit "ticketId"] in
       if truthy ticketId then lookupById rt w ticketId
       else if strict_eq_str path (lit "/invoices")
               || (truthy queryStringParameters
                   && strict_eq_str (getOwn queryStringParameters (lit "list")) (lit "all"))
       then listAll rt w
       else Return (createResponse rt 400
                      (object [(lit "error",
                                JStr (lit "Invalid request path or parameters. Try /invoices/{ticketId} or /invoices?list=all"))])))
      (fun error =>
         Return (createResponse rt 500
                   (object [ (lit "error", JStr (lit "Internal server error."));
                             (lit "details", JStr (message error)) ]))).

End ApiBackend.

(* ================================================================== *)
(** * src/unnamed/part_000: the Mail Ingestor *)
(* ================================================================== *)

Module MailIngestor.
Import JS.

(** ** The services the unit calls *)

(** What [mailparser] hands back for one attachment and for the message.
    A member the message does not declare is [undefined] ([None],
    [JUndefined]). *)
Record Attachment := {
  filename : option jsstring;
  contentType : jsstring;
  content : list Byte.byte
}.

Record ParsedMail := {
  subject : JSValue;
  from : JSValue;
  to : JSValue;
  attachments : list Attachment
}.

Record PutObjectRequest := {
  Bucket : jsstring;
  Key : jsstring;
  Body : list Byte.byte;
  ContentType : jsstring
}.

(** The requests sent to the object store, oldest first. *)
Inductive S3Call :=
| GetObject (bucket : JSValue) (key : jsstring)
| PutObject (request : PutObjectRequest).

Record World := {
  (** [process.env.ATTACHMENT_BUCKET_NAME] *)
  env_ATTACHMENT_BUCKET_NAME : option jsstring;
  (** the n-th reading of the wall clock, in milliseconds *)
  clock : nat -> Z;
  (** [s3.getObject]: the [Body] of the answer, [None] when it has none *)
  s3_getObject : JSValue -> jsstring -> Result (option (list Byte.byte));
  simpleParser : jsstring -> Result ParsedMail;
  s3_putObject_fault : PutObjectRequest -> option JsError
}.

Record State := {
  reads : nat;
  calls : list S3Call
}.

Record Response := {
  statusCode : Z;
  body : jsstring
}.

Definition Date_now (w : World) : Eff State Z :=
  fun st => (Return (clock w (reads st)), {| reads := S (reads st); calls := calls st |}).

(** [await s3.getObject({ Bucket, Key }).promise()] *)
Definition getObject (w : World) (bucket : JSValue) (key : jsstring)
  : Eff State (option (list Byte.byte)) :=
  fun st =>
    (s3_getObject w bucket key,
     {| reads := reads st; calls := calls st ++ [GetObject bucket key] |}).

(** [s3.putObject(request).promise()]: the request leaves at the call;
    the promise settles later, with no further effect. *)
Definition putObject (w : World) (request : PutObjectRequest)
  : Eff State (Result (Eff State unit)) :=
  fun st =>
    (Return (Return (liftR (match s3_putObject_fault w request with
                            | Some e => Throw e
                            | None => Return tt
                            end))),
     {| reads := reads st; calls := calls st ++ [PutObject request] |}).

(** ** Module constants *)

(** [process.env.ATTACHMENT_BUCKET_NAME || 'email-attachments-bucket-dev-1749037511789'] *)
Definition ATTACHMENT_BUCKET_NAME (w : World) : jsstring :=
  match env_ATTACHMENT_BUCKET_NAME w with
  | Some (c :: s) => c :: s
  | Some [] | None => lit "email-attachments-bucket-dev-1749037511789"
  end.

(** ** The attachment loop, lines 81-102 *)

(** [attachment.contentType === 'application/pdf' ||
     (attachment.filename && attachment.filename.toLowerCase().endsWith('.pdf'))] *)
Definition isPdf (attachment : Attachment) : bool :=
  str_eqb (contentType attachment) (lit "application/pdf")
  || match filename attachment with
     | Some (c :: s) => endsWith (toLowerCase (c :: s)) (lit ".pdf")
     | Some [] | None => false
     end.

(** The class [[a-zA-Z0-9_.-]] *)
Definition safeChar (c : N) : bool :=
  (97 <=? c)%N && (c <=? 122)%N
  || (65 <=? c)%N && (c <=? 90)%N
  || (48 <=? c)%N && (c <=? 57)%N
  || N.eqb c 95 || N.eqb c 46 || N.eqb c 45.

(** [filename.replace(/[^a-zA-Z0-9_.-]/g, '_')] *)
Definition safeFilename (filename : jsstring) : jsstring :=
  map (fun c => if safeChar c then c else 95%N) filename.

(** [`attachments/${messageId}/${safeFilename}`] *)
Definition attachmentKey (rt : Runtime) (messageId : JSValue) (filename : jsstring) : jsstring :=
  lit "attachments/" ++ ToString rt messageId ++ lit "/" ++ safeFilename filename.

(** [attachment.filename || `attachment-${messageId}-${Date.now()}.pdf`] *)
Definition filenameOf (rt : Runtime) (w : World) (messageId : JSValue)
    (attachment : Attachment) : Eff State jsstring :=
  match filename attachment with
  | Some (c :: s) => ret (c :: s)
  | Some [] | None =>
      let! now := Date_now w in
      ret (lit "attachment-" ++ ToString rt messageId ++ lit "-"
           ++ Z_to_jsstring now ++ lit ".pdf")
  end.

(** The [for ... of] loop: [uploadPromises] after the attachments left
    to visit. *)
Fixpoint uploadAll (rt : Runtime) (w : World) (messageId : JSValue)
    (todo : list Attachment) (uploadPromises : list (Result (Eff State unit)))
  : Eff State (list (Result (Eff State unit))) :=
  match todo with
  | [] => ret uploadPromises
  | attachment :: todo' =>
      if isPdf attachment then
        let! name := filenameOf rt w messageId attachment in
        let! promise :=
          putObject w {| Bucket := ATTACHMENT_BUCKET_NAME w;
                         Key := attachmentKey rt messageId name;
                         Body := content attachment;
                         ContentType := contentType attachment |} in
        uploadAll rt w messageId todo' (uploadPromises ++ [promise])
      else uploadAll rt w messageId todo' uploadPromises
  end.

(** ** The handler *)

(** [s3Object.Body.toString('utf-8')] *)
Definition bodyToString (rt : Runtime) (b : option (list Byte.byte)) : Result jsstring :=
  match b with
  | Some bytes => Return (Buffer_toString_utf8 rt bytes)
  | None =>
      Throw (TypeError rt (lit "Cannot read properties of undefined (reading 'toString')"))
  end.

(** [v.replace(/\\+/g, ' ')] on whatever [record.s3.object.key] holds. *)
Definition call_replace (rt : Runtime) (v : JSValue) : Result jsstring :=
  match v with
  | JStr s => Return (replace_plus_with_space s)
  | JUndefined =>
      Throw (TypeError rt (lit "Cannot read properties of undefined (reading 'replace')"))
  | JNull =>
      Throw (TypeError rt (lit "Cannot read properties of null (reading 'replace')"))
  | _ => Throw (TypeError rt (lit "record.s3.object.key.replace is not a function"))
  end.

(** The [try] block, lines 68-112. *)
Definition tryBlock (rt : Runtime) (w : World) (messageId sourceBucket : JSValue)
    (sourceKey : jsstring) : Eff State Response :=
  let! s3Object := getObject w sourceBucket sourceKey in
  let! rawEmail := liftR (bodyToString rt s3Object) in
  let! parsedEmail := liftR (simpleParser w rawEmail) in
  (* the arguments of the three console.log calls of lines 74-76 *)
  let! _ := liftR (getProp rt (from parsedEmail) (lit "text")) in
  let! _ := liftR (getProp rt (to parsedEmail) (lit "text")) in
  let! uploadPromises := uploadAll rt w messageId (attachments parsedEmail) [] in
  let! _ := (if (0 <? length uploadPromises)%nat
             then let! _ := Promise_all uploadPromises in ret tt
             else ret tt) in
  ret {| statusCode := 200;
         body := lit "Successfully processed email " ++ ToString rt messageId ++ lit ". "
                 ++ Z_to_jsstring (Z.of_nat (length uploadPromises))
                 ++ lit " PDF(s) uploaded." |}.

Definition handler (rt : Runtime) (w : World) (event : JSValue) : Eff State Response :=
  if negb (truthy (JStr (ATTACHMENT_BUCKET_NAME w))) then
    ret {| statusCode := 500;
           body := lit "Server configuration error: Attachment bucket not set." |}
  else
    let! record := liftR (getPath rt event [lit "Records"; lit "0"]) in
    if negb (truthy (andChain record [lit "ses"; lit "mail"; lit "messageId"])) then
      ret {| statusCode := 400; body := lit "Invalid SES event." |}
    else
      let messageId := andChain record [lit "ses"; lit "mail"; lit "messageId"] in
      let s3 := getOwn record (lit "s3") in
      if negb (truthy (andChain s3 [lit "bucket"]))
         || negb (truthy (getOwn s3 (lit "object"))) then
        ret {| statusCode := 400;
               body := lit "Lambda not triggered by expected S3 event for raw email." |}
      else
        let sourceBucket := getOwn (getOwn s3 (lit "bucket")) (lit "name") in
        let! replaced := liftR (call_replace rt (getOwn (getOwn s3 (lit "object")) (lit "key"))) in
        let! sourceKey := liftR (decodeURIComponent rt replaced) in
        tryCatch (tryBlock rt w messageId sourceBucket sourceKey)
                 (fun error =>
                    ret {| statusCode := 500;
                           body := lit "Error processing email: " ++ message error |}).

End MailIngestor.

(* ================================================================== *)
(** * Vocabulary of the specification *)
(* ================================================================== *)

(** ** The Document Extractor and the Pipeline Orchestrator *)

Module BackendSpec.
Import JS Backend.

(** One more reading of the clock. *)
Definition tick (st : State) : State :=
  {| reads := S (reads st); attempted := attempted st; stored := stored st |}.

(** The state after [db.put] was handed [item]. *)
Definition afterPut (w : World) (item : JSValue) (st : State) : State :=
  {| reads := reads st;
     attempted := attempted st ++ [item];
     stored := match db_put_fault w item with
               | Some _ => stored st
               | None => stored st ++ [item]
               end |}.

(** The fields the extractor adds to the decoded object. *)
Definition addedFields : list jsstring :=
  [lit "S3Bucket"; lit "S3Key"; lit "processingEngine"; lit "extractionTimestamp"].

(** The shapes of a malformed or empty answer of the inference backend:
    no candidates, an empty list of candidates, a first candidate
    without content parts, an empty list of parts. *)
Definition emptyAnswer (resp : GenerateContentResponse) : Prop :=
  truthy (candidates resp) = false \/
  (exists props, candidates resp = JArr [] props) \/
  (exists c rest props,
     candidates resp = JArr (c :: rest) props /\
     (truthy (andChain c [lit "content"; lit "parts"]) = false \/
      exists props', andChain c [lit "content"; lit "parts"] = JArr [] props')).

(** An answer with a first candidate that has a non-empty list of
    content parts. *)
Definition hasContentParts (resp : GenerateContentResponse) : Prop :=
  exists c rest props part parts props',
    candidates resp = JArr (c :: rest) props /\
    andChain c [lit "content"; lit "parts"] = JArr (part :: parts) props'.

(** The failures of the contract of the Document Extractor: missing model
    configuration, a failing call of the backend, a malformed or empty
    answer, an answer declined with a block reason, a text the SDK
    withholds, a payload that is not JSON. *)
Inductive ExtractionFailure (rt : Runtime) (w : World) (pdfBuffer : list Byte.byte) : Prop :=
| MissingModelConfiguration :
    GEMINI_API_KEY w = [] -> ExtractionFailure rt w pdfBuffer
| BackendCallFails e :
    generateContent w pdfBuffer = Throw e -> ExtractionFailure rt w pdfBuffer
| NoResponse result :
    generateContent w pdfBuffer = Return result -> response result = None ->
    ExtractionFailure rt w pdfBuffer
| EmptyAnswer result resp :
    generateContent w pdfBuffer = Return result -> response result = Some resp ->
    emptyAnswer resp -> ExtractionFailure rt w pdfBuffer
| Declined result resp :
    generateContent w pdfBuffer = Return result -> response result = Some resp ->
    truthy (candidates resp) = false ->
    truthy (andChain (promptFeedback resp) [lit "blockReason"]) = true ->
    ExtractionFailure rt w pdfBuffer
| TextUnavailable result resp e :
    generateContent w pdfBuffer = Return result -> response result = Some resp ->
    text resp = Throw e -> ExtractionFailure rt w pdfBuffer
| UndecodablePayload result resp jsonString e :
    generateContent w pdfBuffer = Return result -> response result = Some resp ->
    text resp = Return jsonString -> JSON_parse rt jsonString = Throw e ->
    ExtractionFailure rt w pdfBuffer.

(** [error-<key>-<timestamp>], the clock being read in state [st]. *)
Definition errorTicket (w : World) (key : jsstring) (st : State) : jsstring :=
  lit "error-" ++ key ++ lit "-" ++ Z_to_jsstring (clock w (reads st)).

(** [fallback-<key>-<timestamp>], the clock being read in state [st]. *)
Definition fallbackTicket (w : World) (key : jsstring) (st : State) : jsstring :=
  lit "fallback-" ++ key ++ lit "-" ++ Z_to_jsstring (clock w (reads st)).

(** The Error Record of an item whose [catch] block starts in state
    [st]: the ticket takes the first reading of the clock, the timestamp
    the second. *)
Definition errorRecordAt (w : World) (bucket : JSValue) (key : jsstring)
    (s3ObjectData : option S3Object) (error : JsError) (st : State) : JSValue :=
  errorRecord (errorTicket w key st) bucket key s3ObjectData error
              (toISOString w (clock w (S (reads st)))).

(** How an item comes to its [catch] block before anything was written:
    the fetch fails, the fetched object has no Buffer, or the extraction
    fails.  The first index is the value of [s3ObjectData] at that point,
    the second the error caught. *)
Inductive FetchOrExtractionFails (rt : Runtime) (w : World) (bucket : JSValue)
    (key : jsstring) (st : State) : option S3Object -> JsError -> Prop :=
| FetchFails e :
    s3_getObject w bucket key = Throw e ->
    FetchOrExtractionFails rt w bucket key st None e
| BodyMissing o :
    s3_getObject w bucket key = Return o -> Body o = None ->
    FetchOrExtractionFails rt w bucket key st (Some o)
      (Error rt (lit "S3 object body is not a Buffer."))
| ExtractionFails o pdfBuffer e st1 :
    s3_getObject w bucket key = Return o -> Body o = Some pdfBuffer ->
    processPDFWithGemini rt w pdfBuffer bucket key st = (Throw e, st1) ->
    FetchOrExtractionFails rt w bucket key st (Some o) e.

(** The record handed to the table for an extracted object, the clock
    being read in state [st] when a fallback ticket is needed: the object
    with its TicketId set to its invoiceId, or to the fallback ticket. *)
Definition invoiceRecord (w : World) (extracted : JSValue) (key : jsstring) (st : State)
  : JSValue :=
  JObj (<[lit "TicketId" := if truthy (getOwn extracted (lit "invoiceId"))
                            then getOwn extracted (lit "invoiceId")
                            else JStr (fallbackTicket w key st)]> (spread extracted)).

(** The item [key] of [bucket], taken up in state [st], fails: the fetch
    throws, the fetched object has no Buffer, the extraction throws, or
    the table refuses the record of the extracted invoice. *)
Inductive ItemFails (rt : Runtime) (w : World) (bucket : JSValue) (key : jsstring)
    (st : State) : Prop :=
| FetchThrows e :
    s3_getObject w bucket key = Throw e ->
    ItemFails rt w bucket key st
| NoBuffer o :
    s3_getObject w bucket key = Return o -> Body o = None ->
    ItemFails rt w bucket key st
| ExtractionThrows o pdfBuffer e st1 :
    s3_getObject w bucket key = Return o -> Body o = Some pdfBuffer ->
    processPDFWithGemini rt w pdfBuffer bucket key st = (Throw e, st1) ->
    ItemFails rt w bucket key st
| RecordRefused o pdfBuffer extracted st1 e :
    s3_getObject w bucket key = Return o -> Body o = Some pdfBuffer ->
    processPDFWithGemini rt w pdfBuffer bucket key st = (Return extracted, st1) ->
    db_put_fault w (invoiceRecord w extracted key st1) = Some e ->
    ItemFails rt w bucket key st.

(** [outcome], an element of [results] in the body of the answer, is the
    outcome of the item [key]: it carries the key, and its member
    [success] is the boolean [ok]. *)
Definition Outcome (outcome : JSValue) (key : jsstring) (ok : bool) : Prop :=
  getOwn outcome (lit "key") = JStr key /\
  getOwn outcome (lit "success") = JBool ok.

(** A record of a storage notification: it names a bucket and carries
    the URL-encoded key of the object. *)
Definition S3Record (rt : Runtime) (record bucket : JSValue) (key : jsstring) : Prop :=
  exists rawKey,
    getPath rt record [lit "s3"; lit "bucket"; lit "name"] = Return bucket /\
    getPath rt record [lit "s3"; lit "object"; lit "key"] = Return (JStr rawKey) /\
    decodeURIComponent rt (replace_plus_with_space rawKey) = Return key.

(** [Batch rt w st records outcomes st']: there is one outcome per
    record, in the order of the records; the outcome of a record is that
    of its item, marked failure exactly when the item fails and success
    otherwise; the items are taken up one after the other from state
    [st] to state [st'], each where the callback of the one before left
    the services. *)
Inductive Batch (rt : Runtime) (w : World)
  : State -> list JSValue -> list JSValue -> State -> Prop :=
| Batch_done st : Batch rt w st [] [] st
| Batch_item st record bucket key outcome ok records outcomes st' :
    S3Record rt record bucket key ->
    Outcome outcome key ok ->
    (ok = false <-> ItemFails rt w bucket key st) ->
    Batch rt w (processObject rt w bucket key st).2 records outcomes st' ->
    Batch rt w st (record :: records) (outcome :: outcomes) st'.

End BackendSpec.

(** ** The Query Service *)

Module ApiSpec.
Import JS ApiBackend.

Definition statusCodes : list Z := [200; 400; 404; 405; 500]%Z.

Definition fixedHeaders : list (jsstring * jsstring) :=
  [ (lit "Content-Type", lit "application/json");
    (lit "Access-Control-Allow-Origin", lit "*");
    (lit "Access-Control-Allow-Methods", lit "GET,OPTIONS");
    (lit "Access-Control-Allow-Headers",
     lit "Content-Type,X-Amz-Date,Authorization,X-Api-Key,X-Amz-Security-Token") ].

Definition fromCreateResponse (rt : Runtime) (r : Response) : Prop :=
  exists code payload,
    r = createResponse rt code payload /\ In code statusCodes.

(** A lookup-by-id request: a GET whose path parameters carry a ticket id. *)
Definition lookupRequest (event ticketId : JSValue) : Prop :=
  strict_eq_str (getOwn event (lit "httpMethod")) (lit "GET") = true /\
  andChain (getOwn event (lit "pathParameters")) [lit "ticketId"] = ticketId /\
  truthy ticketId = true.

End ApiSpec.

(** ** The Mail Ingestor *)

Module IngestorSpec.
Import JS MailIngestor.

(** The first record lacks the SES message id or the S3 object structure. *)
Definition lacksStructure (record : JSValue) : Prop :=
  truthy (andChain record [lit "ses"; lit "mail"; lit "messageId"]) = false \/
  truthy (andChain record [lit "s3"; lit "bucket"]) = false \/
  truthy (andChain record [lit "s3"; lit "object"]) = false.

(** The promise of an upload request that has left. *)
Definition uploadPromise (w : World) (request : PutObjectRequest) : Result (Eff State unit) :=
  Return (liftR (match s3_putObject_fault w request with
                 | Some e => Throw e
                 | None => Return tt
                 end)).

(** [request] stores the attachment [a] of the message [messageId]: under
    [attachments/<messageId>/<sanitized filename>], the filename being
    the declared one, or [attachment-<messageId>-<timestamp>.pdf]. *)
Definition storesAttachment (rt : Runtime) (w : World) (messageId : JSValue)
    (a : Attachment) (request : PutObjectRequest) : Prop :=
  Bucket request = ATTACHMENT_BUCKET_NAME w /\
  Body request = content a /\
  ContentType request = contentType a /\
  exists name,
    Key request = lit "attachments/" ++ ToString rt messageId ++ lit "/" ++ safeFilename name /\
    match filename a with
    | Some (c :: s) => name = c :: s
    | Some [] | None =>
        exists t, name = lit "attachment-" ++ ToString rt messageId ++ lit "-"
                         ++ Z_to_jsstring t ++ lit ".pdf"
    end.

End IngestorSpec.

(* ================================================================== *)
(** * Concrete platforms, services and events

    The instances the examples below are evaluated on. *)
(* ================================================================== *)

Module Fixtures.
Import JS.

(** ** A platform *)

Definition invoice42 : JSValue :=
  object [(lit "invoiceId", JStr (lit "INV-42")); (lit "currency", JStr (lit "EUR"))].

Definition anonymousInvoice : JSValue :=
  object [(lit "currency", JStr (lit "EUR"))].

Definition syntaxError : JsError :=
  {| name := lit "SyntaxError"; message := lit "Unexpected token o in JSON at position 1";
     stack := Some (lit "SyntaxError: Unexpected token o in JSON at position 1") |}.

(** ["s"], with its quotation marks *)
Definition quoted (s : string) : jsstring := [34%N] ++ lit s ++ [34%N].

Definition invoice42_json : jsstring :=
  lit "{" ++ quoted "invoiceId" ++ lit ":" ++ quoted "INV-42" ++ lit ","
  ++ quoted "currency" ++ lit ":" ++ quoted "EUR" ++ lit "}".

Definition anonymousInvoice_json : jsstring :=
  lit "{" ++ quoted "currency" ++ lit ":" ++ quoted "EUR" ++ lit "}".

(** [JSON.parse] on the two documents above and on text that is not
    JSON; [JSON.stringify] prints the top-level keys of an object. *)
Definition rt : Runtime :=
  {| JSON_parse := fun s =>
       if str_eqb s invoice42_json then Return invoice42
       else if str_eqb s anonymousInvoice_json then Return anonymousInvoice
       else Throw syntaxError;
     JSON_stringify := fun v =>
       match v with
       | JObj props => lit "{" ++ join (lit ",") (map fst (map_to_list props)) ++ lit "}"
       | _ => lit "?"
       end;
     Number_toString := fun _ => lit "0";
     Buffer_toString_utf8 := map (fun b => N_of_ascii (ascii_of_byte b));
     captureStack := fun kind msg => Some (kind ++ lit ": " ++ msg) |}.

(** ** The services behind the orchestrator *)

Definition answerWith (payload : Result jsstring) : Backend.GenerateContentResult :=
  {| Backend.response :=
       Some {| Backend.candidates :=
                 JArr [object [(lit "content",
                                object [(lit "parts",
                                         JArr [object [(lit "text", JStr (lit "..."))]] ∅)])]]
                      ∅;
               Backend.text := payload;
               Backend.promptFeedback := JUndefined |} |}.

Definition blockedError : JsError :=
  {| name := lit "GoogleGenerativeAIResponseError";
     message := lit "Text not available. Response was blocked due to SAFETY";
     stack := None |}.

(** The answer to a prompt the backend declines: no candidate, and the
    reason in [promptFeedback.blockReason]. *)
Definition declinedAnswer : Backend.GenerateContentResult :=
  {| Backend.response :=
       Some {| Backend.candidates := JUndefined;
               Backend.text := Throw blockedError;
               Backend.promptFeedback := object [(lit "blockReason", JStr (lit "SAFETY"))] |} |}.

Definition noSuchKey : JsError :=
  {| name := lit "NoSuchKey"; message := lit "The specified key does not exist.";
     stack := Some (lit "NoSuchKey: The specified key does not exist.") |}.

(** Four documents, told apart by their first byte: an invoice with an
    id, an invoice without, one the backend answers with text that is
    not JSON, one the backend declines. *)
Definition backendWorld (apiKey : jsstring) : Backend.World :=
  {| Backend.GEMINI_API_KEY := apiKey;
     Backend.clock := fun n => (1700000000000 + Z.of_nat n)%Z;
     Backend.toISOString := fun t => lit "T+" ++ Z_to_jsstring t;
     Backend.s3_getObject := fun _ key =>
       let found (b : Byte.byte) :=
         Return {| Backend.Body := Some [b];
                   Backend.ContentLength := JNum (Number_of_nat 1);
                   Backend.ContentType := JStr (lit "application/pdf") |} in
       if str_eqb key (lit "inbox/invoice 42.pdf") then found Byte.x01
       else if str_eqb key (lit "inbox/anonymous.pdf") then found Byte.x02
       else if str_eqb key (lit "inbox/garbled.pdf") then found Byte.x03
       else if str_eqb key (lit "inbox/declined.pdf") then found Byte.x04
       else Throw noSuchKey;
     Backend.generateContent := fun pdf =>
       match pdf with
       | [Byte.x01] => Return (answerWith (Return invoice42_json))
       | [Byte.x02] => Return (answerWith (Return anonymousInvoice_json))
       | [Byte.x03] => Return (answerWith (Return (lit "not json")))
       | _ => Return declinedAnswer
       end;
     Backend.db_put_fault := fun _ => None |}.

Definition configured : Backend.World := backendWorld (lit "key-of-the-deployment").

Definition st0 : Backend.State :=
  {| Backend.reads := 0; Backend.attempted := []; Backend.stored := [] |}.

Definition s3Record (rawKey : string) : JSValue :=
  object [(lit "s3",
           object [ (lit "bucket", object [(lit "name", JStr (lit "attachments"))]);
                    (lit "object", object [(lit "key", JStr (lit rawKey))]) ])].

Definition s3Event (rawKeys : list string) : JSValue :=
  object [(lit "Records", JArr (map s3Record rawKeys) ∅)].

(** The keys of a batch of three, as a notification carries them: an
    invoice, a document answered with text that is not JSON, an object
    that is gone. *)
Definition threeKeys : list string :=
  ["inbox/invoice+42.pdf"; "inbox/garbled.pdf"; "inbox/gone.pdf"]%string.

(** A batch whose second key is not URL-encoded. *)
Definition malformedKeys : list string :=
  ["inbox/invoice+42.pdf"; "inbox/100%.pdf"]%string.

(** ** The table behind the Query Service *)

Definition storedInvoice : gmap jsstring JSValue :=
  <[lit "TicketId" := JStr (lit "INV-42")]> (spread invoice42).

Definition apiWorld : ApiBackend.World :=
  {| ApiBackend.table := fun k =>
       if strict_eq_str k (lit "INV-42") then Some storedInvoice else None;
     ApiBackend.db_get_fault := fun _ => None;
     ApiBackend.db_scan := Return (JArr [JObj storedInvoice] ∅, JNum (Number_of_nat 1)) |}.

Definition getInvoice (id : string) : JSValue :=
  object [ (lit "httpMethod", JStr (lit "GET"));
           (lit "path", JStr (lit "/invoices/" ++ lit id));
           (lit "pathParameters", object [(lit "ticketId", JStr (lit id))]) ].

Definition preflight : JSValue :=
  object [(lit "httpMethod", JStr (lit "OPTIONS")); (lit "path", JStr (lit "/invoices"))].

(** ** The services behind the Mail Ingestor *)

Definition invoicePdf : MailIngestor.Attachment :=
  {| MailIngestor.filename := Some (lit "invoice.pdf");
     MailIngestor.contentType := lit "application/pdf";
     MailIngestor.content := [Byte.x25; Byte.x50; Byte.x44; Byte.x46] |}.

Definition logoPng : MailIngestor.Attachment :=
  {| MailIngestor.filename := Some (lit "logo.png");
     MailIngestor.contentType := lit "image/png";
     MailIngestor.content := [Byte.x89; Byte.x50; Byte.x4e; Byte.x47] |}.

(** A message with a [From] and a [To] header. *)
Definition addressedMail : MailIngestor.ParsedMail :=
  {| MailIngestor.subject := JStr (lit "Invoice");
     MailIngestor.from := object [(lit "text", JStr (lit "billing@vendor.example"))];
     MailIngestor.to := object [(lit "text", JStr (lit "invoices@customer.example"))];
     MailIngestor.attachments := [invoicePdf; logoPng] |}.

(** The same message sent to blind-copy recipients only: it has no [To]
    header, and the parser leaves [to] undefined. *)
Definition blindCopyMail : MailIngestor.ParsedMail :=
  {| MailIngestor.subject := JStr (lit "Invoice");
     MailIngestor.from := object [(lit "text", JStr (lit "billing@vendor.example"))];
     MailIngestor.to := JUndefined;
     MailIngestor.attachments := [invoicePdf; logoPng] |}.

Definition ingestWorld (mail : MailIngestor.ParsedMail) : MailIngestor.World :=
  {| MailIngestor.env_ATTACHMENT_BUCKET_NAME := Some (lit "attachments");
     MailIngestor.clock := fun n => (1700000000000 + Z.of_nat n)%Z;
     MailIngestor.s3_getObject := fun _ _ => Return (Some [Byte.x46; Byte.x72; Byte.x6f; Byte.x6d]);
     MailIngestor.simpleParser := fun _ => Return mail;
     MailIngestor.s3_putObject_fault := fun _ => None |}.

Definition ingest0 : MailIngestor.State :=
  {| MailIngestor.reads := 0; MailIngestor.calls := [] |}.

Definition mailRecord : JSValue :=
  object [ (lit "ses", object [(lit "mail", object [(lit "messageId", JStr (lit "M1"))])]);
           (lit "s3",
            object [ (lit "bucket", object [(lit "name", JStr (lit "raw-mail"))]);
                     (lit "object", object [(lit "key", JStr (lit "emails/M1"))]) ]) ].

Definition mailEvent : JSValue :=
  object [(lit "Records", JArr [mailRecord] ∅)].

(** A record of the mail-receiving service alone: no [s3] member. *)
Definition sesOnlyEvent : JSValue :=
  object [(lit "Records",
           JArr [object [(lit "ses",
                          object [(lit "mail",
                                   object [(lit "messageId", JStr (lit "M1"))])])]] ∅)].

End Fixtures.
(* ================================================================== *)
(** * Further vocabulary *)
(* ================================================================== *)

(** ** The Query Service: request shapes and payloads *)

Module ApiShapes.
Import JS ApiBackend.

(** [event.httpMethod === 'GET'] *)
Definition isGet (event : JSValue) : Prop :=
  strict_eq_str (getOwn event (lit "httpMethod")) (lit "GET") = true.

(** [event.pathParameters && event.pathParameters.ticketId] *)
Definition ticketOf (event : JSValue) : JSValue :=
  andChain (getOwn event (lit "pathParameters")) [lit "ticketId"].

(** The condition of the list-all branch, line 62. *)
Definition asksForAll (event : JSValue) : bool :=
  strict_eq_str (getOwn event (lit "path")) (lit "/invoices")
  || (truthy (getOwn event (lit "queryStringParameters"))
      && strict_eq_str (getOwn (getOwn event (lit "queryStringParameters")) (lit "list"))
                       (lit "all")).

(** The response [r] carries the status [code], the fixed headers, and
    for body the serialization of [payload]. *)
Definition answers (rt : Runtime) (r : Response) (code : Z) (payload : JSValue) : Prop :=
  statusCode r = code /\
  headers r = ApiSpec.fixedHeaders /\
  body r = JSON_stringify rt payload.

Definition preflightPayload : JSValue :=
  object [(lit "message", JStr (lit "CORS preflight successful"))].


Definition listPayload (items count : JSValue) : JSValue :=
  object [ (lit "items", items);
           (lit "count", count);
           (lit "message",
            JStr (lit "Full scan executed. Implement pagination for production.")) ].

Definition badRequestPayload : JSValue :=
  object [(lit "error",
           JStr (lit "Invalid request path or parameters. Try /invoices/{ticketId} or /invoices?list=all"))].

Definition serverErrorPayload (e : JsError) : JSValue :=
  object [ (lit "error", JStr (lit "Internal server error."));
           (lit "details", JStr (message e)) ].

End ApiShapes.

Module ApiFixtures.
Import JS.

Definition throttled : JsError :=
  {| name := lit "ProvisionedThroughputExceededException";
     message := lit "The level of configured provisioned throughput for the table was exceeded.";
     stack := None |}.

(** A table that refuses every read. *)
Definition failingApiWorld : ApiBackend.World :=
  {| ApiBackend.table := fun _ => None;
     ApiBackend.db_get_fault := fun _ => Some throttled;
     ApiBackend.db_scan := Throw throttled |}.

Definition listInvoices : JSValue :=
  object [ (lit "httpMethod", JStr (lit "GET"));
           (lit "path", JStr (lit "/invoices")) ].


Definition getElsewhere : JSValue :=
  object [ (lit "httpMethod", JStr (lit "GET"));
           (lit "path", JStr (lit "/health")) ].

End ApiFixtures.

(** ** The orchestrator and the table *)

Module TableSpec.
Import JS Backend BackendSpec.

(** The item carries a TicketId that JavaScript takes for true: a
    non-empty string in particular. *)
Definition hasTicket (item : JSValue) : Prop :=
  truthy (getOwn item (lit "TicketId")) = true.

(** The table takes the item. *)
Definition accepted (w : World) (item : JSValue) : bool :=
  match db_put_fault w item with
  | None => true
  | Some _ => false
  end.

(** Between [st] and [st'] the items [l] were handed to [db.put], in
    this order and no others; each carries a ticket, and the table holds
    in addition exactly those it took. *)
Definition Writes (w : World) (st st' : State) (l : list JSValue) : Prop :=
  attempted st' = attempted st ++ l /\
  stored st' = stored st ++ List.filter (accepted w) l /\
  Forall hasTicket l.

(** A decoded payload that is neither an object nor an array. *)
Definition isPrimitive (v : JSValue) : Prop :=
  match v with
  | JObj _ | JArr _ _ => False
  | JUndefined | JNull | JBool _ | JNum _ | JStr _ => True
  end.

End TableSpec.

Module TableFixtures.
Import JS.

Definition conditionFailed : JsError :=
  {| name := lit "ValidationException";
     message := lit "One or more parameter values were invalid";
     stack := Some (lit "ValidationException: One or more parameter values were invalid") |}.

(** The services of [Fixtures.configured], with a table that refuses
    every item but the Error Records. *)
Definition refusingInvoices : Backend.World :=
  {| Backend.GEMINI_API_KEY := Backend.GEMINI_API_KEY Fixtures.configured;
     Backend.clock := Backend.clock Fixtures.configured;
     Backend.toISOString := Backend.toISOString Fixtures.configured;
     Backend.s3_getObject := Backend.s3_getObject Fixtures.configured;
     Backend.generateContent := Backend.generateContent Fixtures.configured;
     Backend.db_put_fault := fun item =>
       if strict_eq_str (getOwn item (lit "Status")) (lit "Error-ProcessingFailed")
       then None else Some conditionFailed |}.

(** The services of [Fixtures.configured], with a backend whose payload
    is the JSON text [null] or a JSON array. *)
Definition answering (payload : jsstring) : Backend.World :=
  {| Backend.GEMINI_API_KEY := Backend.GEMINI_API_KEY Fixtures.configured;
     Backend.clock := Backend.clock Fixtures.configured;
     Backend.toISOString := Backend.toISOString Fixtures.configured;
     Backend.s3_getObject := Backend.s3_getObject Fixtures.configured;
     Backend.generateContent := fun _ => Return (Fixtures.answerWith (Return payload));
     Backend.db_put_fault := fun _ => None |}.

(** A platform whose [JSON.parse] also knows [null] and [[]]. *)
Definition rt : Runtime :=
  {| JSON_parse := fun s =>
       if str_eqb s (lit "null") then Return JNull
       else if str_eqb s (lit "[]") then Return (JArr [] ∅)
       else JSON_parse Fixtures.rt s;
     JSON_stringify := JSON_stringify Fixtures.rt;
     Number_toString := Number_toString Fixtures.rt;
     Buffer_toString_utf8 := Buffer_toString_utf8 Fixtures.rt;
     captureStack := captureStack Fixtures.rt |}.

(** An event without [Records], and a batch whose second record has no
    [s3] member. *)
Definition noRecords : JSValue := object [(lit "source", JStr (lit "console"))].


End TableFixtures.

(** ** The Mail Ingestor: records, faults *)

Module IngestShapes.
Import JS MailIngestor.

(** The first record passes both guards of the handler: it carries the
    message id [messageId], and an [s3] member whose bucket is named
    [sourceBucket] and whose object has the URL-encoded key of
    [sourceKey]. *)
Definition MailRecord (rt : Runtime) (record messageId sourceBucket : JSValue)
    (sourceKey : jsstring) : Prop :=
  andChain record [lit "ses"; lit "mail"; lit "messageId"] = messageId /\
  truthy messageId = true /\
  truthy (getOwn (getOwn record (lit "s3")) (lit "bucket")) = true /\
  truthy (getOwn (getOwn record (lit "s3")) (lit "object")) = true /\
  getOwn (getOwn (getOwn record (lit "s3")) (lit "bucket")) (lit "name") = sourceBucket /\
  exists rawKey,
    getOwn (getOwn (getOwn record (lit "s3")) (lit "object")) (lit "key") = JStr rawKey /\
    decodeURIComponent rt (replace_plus_with_space rawKey) = Return sourceKey.

(** The first upload, in the order of the requests, that the object
    store refuses. *)
Fixpoint firstFault (w : World) (requests : list PutObjectRequest) : option JsError :=
  match requests with
  | [] => None
  | request :: requests' =>
      match s3_putObject_fault w request with
      | Some e => Some e
      | None => firstFault w requests'
      end
  end.

(** The answer of the [catch] block. *)
Definition failed (e : JsError) : Response :=
  {| statusCode := 500; body := lit "Error processing email: " ++ message e |}.

(** The answer after [n] uploads. *)
Definition uploaded (rt : Runtime) (messageId : JSValue) (n : nat) : Response :=
  {| statusCode := 200;
     body := lit "Successfully processed email " ++ ToString rt messageId ++ lit ". "
             ++ Z_to_jsstring (Z.of_nat n) ++ lit " PDF(s) uploaded." |}.

(** The answers of the two guards. *)
Definition invalidSes : Response :=
  {| statusCode := 400; body := lit "Invalid SES event." |}.

Definition notFromS3 : Response :=
  {| statusCode := 400;
     body := lit "Lambda not triggered by expected S3 event for raw email." |}.

(** The answer of line 19. *)
Definition notConfigured : Response :=
  {| statusCode := 500;
     body := lit "Server configuration error: Attachment bucket not set." |}.

Definition Response_eqb (a b : Response) : bool :=
  Z.eqb (statusCode a) (statusCode b) && str_eqb (body a) (body b).

End IngestShapes.

Module IngestFixtures.
Import JS.

Definition accessDenied : JsError :=
  {| name := lit "AccessDenied"; message := lit "Access Denied";
     stack := Some (lit "AccessDenied: Access Denied") |}.

Definition scanPdf : MailIngestor.Attachment :=
  {| MailIngestor.filename := None;
     MailIngestor.contentType := lit "application/pdf";
     MailIngestor.content := [Byte.x25; Byte.x50; Byte.x44; Byte.x46] |}.

(** A message with two PDF attachments, the second without a name. *)
Definition twoPdfMail : MailIngestor.ParsedMail :=
  {| MailIngestor.subject := JStr (lit "Invoices");
     MailIngestor.from := object [(lit "text", JStr (lit "billing@vendor.example"))];
     MailIngestor.to := object [(lit "text", JStr (lit "invoices@customer.example"))];
     MailIngestor.attachments := [Fixtures.invoicePdf; Fixtures.logoPng; scanPdf] |}.

(** An object store that refuses the upload of [invoice.pdf]. *)
Definition refusingUploads : MailIngestor.World :=
  {| MailIngestor.env_ATTACHMENT_BUCKET_NAME := None;
     MailIngestor.clock := fun n => (1700000000000 + Z.of_nat n)%Z;
     MailIngestor.s3_getObject := fun _ _ => Return (Some []);
     MailIngestor.simpleParser := fun _ => Return twoPdfMail;
     MailIngestor.s3_putObject_fault := fun request =>
       if endsWith (MailIngestor.Key request) (lit "invoice.pdf")
       then Some accessDenied else None |}.

(** An object store that does not hold the raw message. *)
Definition missingMessage : MailIngestor.World :=
  {| MailIngestor.env_ATTACHMENT_BUCKET_NAME := None;
     MailIngestor.clock := fun n => (1700000000000 + Z.of_nat n)%Z;
     MailIngestor.s3_getObject := fun _ _ => Throw Fixtures.noSuchKey;
     MailIngestor.simpleParser := fun _ => Return twoPdfMail;
     MailIngestor.s3_putObject_fault := fun _ => None |}.

(** A record that passes the guards with a key that is not URL-encoded. *)
Definition badKeyEvent : JSValue :=
  object [(lit "Records",
           JArr [object [ (lit "ses",
                           object [(lit "mail",
                                    object [(lit "messageId", JStr (lit "M1"))])]);
                          (lit "s3",
                           object [ (lit "bucket", object [(lit "name", JStr (lit "raw-mail"))]);
                                    (lit "object",
                                     object [(lit "key", JStr (lit "emails/50%"))]) ]) ]] ∅)].

End IngestFixtures.

(* ================================================================== *)
(** * Properties *)
(* ================================================================== *)

(** ** The JavaScript fragment *)

Section Language.
Import JS.

Lemma str_eqb_eq (a b : jsstring) : str_eqb a b = true <-> a = b.
Proof.
  revert b. induction a as [|x a IH]; intros [|y b]; simpl; split; try easy.
  - intros [Hx Hab]%andb_prop. apply N.eqb_eq in Hx. apply IH in Hab. congruence.
  - intros [= -> ->]. rewrite N.eqb_refl. simpl. now apply IH.
Qed.

Lemma strict_eq_str_eq v s : strict_eq_str v s = true <-> v = JStr s.
Proof.
  destruct v; simpl; split; try easy.
  - intros ->%str_eqb_eq. reflexivity.
  - intros [= ->]. now apply str_eqb_eq.
Qed.

Lemma startsWith_app (k b : jsstring) : startsWith (k ++ b) k = true.
Proof.
  induction k as [|c k IH]; [destruct b; reflexivity|].
  cbn. rewrite N.eqb_refl. exact IH.
Qed.

Lemma includes_app (a k b : jsstring) : includes (a ++ k ++ b) k = true.
Proof.
  induction a as [|c a IH].
  - cbn [app]. destruct (k ++ b) eqn:E; cbn [includes]; rewrite <- ?E, startsWith_app; reflexivity.
  - cbn [app includes]. rewrite IH. apply orb_true_r.
Qed.

Lemma getProp_not_nullish rt v k :
  v <> JUndefined -> v <> JNull -> getProp rt v k = Return (getOwn v k).
Proof. destruct v; simpl; congruence. Qed.

Lemma getProp_truthy rt v k : truthy v = true -> getProp rt v k = Return (getOwn v k).
Proof. destruct v; simpl; try discriminate; reflexivity. Qed.

Lemma getProp_object rt v k :
  (exists props, v = JObj props) \/ (exists elems props, v = JArr elems props) ->
  getProp rt v k = Return (getOwn v k).
Proof. intros [[p ->]|(el & p & ->)]; reflexivity. Qed.

Lemma getOwn_strict_eq_not_nullish v k s :
  strict_eq_str (getOwn v k) s = true -> v <> JUndefined /\ v <> JNull.
Proof. destruct v; simpl; try discriminate; split; discriminate. Qed.

(** A member of a falsy value is falsy: only objects, arrays and
    non-empty strings have truthy members. *)
Lemma getOwn_truthy v k : truthy (getOwn v k) = true -> truthy v = true.
Proof.
  intros H.
  destruct v as [| | b | n | [|c s] | elems props | props];
    try reflexivity; try discriminate H.
  cbn [getOwn length Number_of_nat] in H.
  destruct (str_eqb k (lit "length")); [discriminate H|].
  destruct (index_of_key k) as [i|]; [destruct i|]; discriminate H.
Qed.

Lemma getOwn_index0 c rest props : getOwn (JArr (c :: rest) props) (lit "0") = c.
Proof. reflexivity. Qed.

Lemma getOwn_length elems props :
  getOwn (JArr elems props) (lit "length") = JNum (Number_of_nat (length elems)).
Proof. reflexivity. Qed.

Lemma andChain_falsy v path : truthy v = false -> andChain v path = v.
Proof. intros H. destruct path; cbn [andChain]; [reflexivity|]. rewrite H. reflexivity. Qed.

Lemma andChain_truthy_head v path : truthy (andChain v path) = true -> truthy v = true.
Proof.
  destruct (truthy v) eqn:E; [reflexivity|]. rewrite andChain_falsy by exact E. congruence.
Qed.

Lemma andChain_step v k path :
  truthy v = true -> andChain v (k :: path) = andChain (getOwn v k) path.
Proof. intros H. cbn [andChain]. rewrite H. reflexivity. Qed.

Lemma setProp_shape rt v k x v' :
  setProp rt v k x = Return v' ->
  (exists props, v' = JObj props) \/ (exists elems props, v' = JArr elems props).
Proof. destruct v; simpl; intros [= <-]; eauto. Qed.

(** The decoder accepts an escaped space and refuses a lone percent sign. *)
Example decodeURIComponent_space rt :
  decodeURIComponent rt (lit "inbox/invoice%2042.pdf") = Return (lit "inbox/invoice 42.pdf").
Proof. reflexivity. Qed.

Example decodeURIComponent_malformed rt :
  decodeURIComponent rt (lit "100%") = Throw (URIError rt (lit "URI malformed")).
Proof. reflexivity. Qed.

End Language.

(** ** The Query Service *)

Section QueryService.
Import JS ApiBackend ApiSpec.

Lemma createResponse_from rt code payload :
  In code statusCodes -> fromCreateResponse rt (createResponse rt code payload).
Proof. intros H. exists code, payload. split; [reflexivity | exact H]. Qed.

Ltac status := apply createResponse_from; unfold statusCodes; simpl; tauto.

Lemma lookupById_from rt w ticketId r :
  lookupById rt w ticketId = Return r -> fromCreateResponse rt r.
Proof.
  unfold lookupById.
  destruct (db_get w ticketId) as [data|e]; simpl; [|discriminate].
  destruct (getProp rt data (lit "Item")) as [item|e]; simpl; [|discriminate].
  destruct (truthy item); intros [= <-]; status.
Qed.

Lemma listAll_from rt w r :
  listAll rt w = Return r -> fromCreateResponse rt r.
Proof.
  unfold listAll.
  destruct (db_scan w) as [data|e]; simpl; [|discriminate].
  intros [= <-]; status.
Qed.

(** C9: every response of the Query Service handler is built by
    [createResponse]: its status is one of 200, 400, 404, 405 and 500,
    its headers are the fixed set (Content-Type: application/json,
    Access-Control-Allow-Origin: *, Access-Control-Allow-Methods:
    GET,OPTIONS and the fixed Access-Control-Allow-Headers list) and its
    body is the JSON serialization of a payload. *)
Theorem handler_uses_createResponse rt w event r :
  handler rt w event = Return r ->
  exists code payload,
    r = createResponse rt code payload /\
    In code statusCodes /\
    headers r = fixedHeaders /\
    body r = JSON_stringify rt payload.
Proof.
  intros H.
  assert (fromCreateResponse rt r) as (code & payload & -> & Hc).
  { revert H. unfold handler.
    destruct (getProp rt event (lit "httpMethod")) as [m|e]; simpl; [|discriminate].
    destruct (getProp rt event (lit "path")) as [p|e]; simpl; [|discriminate].
    destruct (strict_eq_str m (lit "OPTIONS")); [intros [= <-]; status|].
    destruct (strict_eq_str m (lit "GET")); simpl; [|intros [= <-]; status].
    match goal with |- tryCatchR ?b _ = _ -> _ => destruct b as [r'|e] eqn:Hb end; simpl.
    - intros [= <-]. revert Hb.
      destruct (truthy _); [apply lookupById_from|].
      destruct (_ || _); [apply listAll_from|].
      intros [= <-]; status.
    - intros [= <-]; status. }
  exists code, payload. repeat split; assumption.
Qed.

(** The pre-flight request is answered through [createResponse]. *)
Lemma handler_uses_createResponse_witness :
  exists code payload,
    createResponse Fixtures.rt 200
      (object [(lit "message", JStr (lit "CORS preflight successful"))])
    = createResponse Fixtures.rt code payload /\
    In code statusCodes /\
    headers (createResponse Fixtures.rt 200
               (object [(lit "message", JStr (lit "CORS preflight successful"))]))
    = fixedHeaders /\
    body (createResponse Fixtures.rt 200
            (object [(lit "message", JStr (lit "CORS preflight successful"))]))
    = JSON_stringify Fixtures.rt payload.
Proof.
  apply (handler_uses_createResponse Fixtures.rt Fixtures.apiWorld Fixtures.preflight).
  reflexivity.
Defined.

(** C5: a lookup-by-id request whose read of the store succeeds is
    answered with a response whose status is 404 and whose body is the
    serialization of an object holding an error message only (no
    record), when the store holds no record under the id; and with a
    response whose status is 200 and whose body is the serialization of
    exactly the stored record, when it holds one. *)
Theorem lookup_by_id rt w event ticketId :
  lookupRequest event ticketId ->
  db_get_fault w ticketId = None ->
  exists r,
    handler rt w event = Return r /\
    match table w ticketId with
    | None =>
        statusCode r = 404%Z /\
        body r = JSON_stringify rt
                   (object [(lit "error",
                             JStr (lit "Invoice with TicketId " ++ ToString rt ticketId
                                   ++ lit " not found."))])
    | Some item =>
        statusCode r = 200%Z /\
        body r = JSON_stringify rt (JObj item)
    end.
Proof.
  intros (Hget & Hid & Ht) Hok.
  assert (Hev : handler rt w event = tryCatchR (lookupById rt w ticketId)
            (fun error => Return (createResponse rt 500
                   (object [ (lit "error", JStr (lit "Internal server error."));
                             (lit "details", JStr (message error)) ])))).
  { unfold handler.
    destruct (getOwn_strict_eq_not_nullish _ _ _ Hget) as [Hu Hn].
    rewrite !getProp_not_nullish by assumption. cbn [bindR].
    apply strict_eq_str_eq in Hget. rewrite Hget.
    change (strict_eq_str (JStr (lit "GET")) (lit "OPTIONS")) with false.
    change (strict_eq_str (JStr (lit "GET")) (lit "GET")) with true.
    cbn [negb]. cbv zeta. rewrite Hid, Ht. reflexivity. }
  rewrite Hev. unfold lookupById, db_get. rewrite Hok.
  destruct (table w ticketId) as [item|]; eexists; (split; [reflexivity|]); split; reflexivity.
Qed.

(** The stored invoice INV-42 is returned as it is; NO-SUCH is not found. *)
Lemma lookup_by_id_witness :
  (exists r,
     handler Fixtures.rt Fixtures.apiWorld (Fixtures.getInvoice "INV-42") = Return r /\
     statusCode r = 200%Z /\
     body r = JSON_stringify Fixtures.rt (JObj Fixtures.storedInvoice)) /\
  (exists r,
     handler Fixtures.rt Fixtures.apiWorld (Fixtures.getInvoice "NO-SUCH") = Return r /\
     statusCode r = 404%Z /\
     body r = JSON_stringify Fixtures.rt
                (object [(lit "error",
                          JStr (lit "Invoice with TicketId NO-SUCH not found."))])).
Proof.
  split.
  - apply (lookup_by_id Fixtures.rt Fixtures.apiWorld (Fixtures.getInvoice "INV-42")
             (JStr (lit "INV-42"))).
    + repeat split; reflexivity.
    + reflexivity.
  - apply (lookup_by_id Fixtures.rt Fixtures.apiWorld (Fixtures.getInvoice "NO-SUCH")
             (JStr (lit "NO-SUCH"))).
    + repeat split; reflexivity.
    + reflexivity.
Defined.

End QueryService.

(** ** The Mail Ingestor *)

Section Ingestor.
Import JS MailIngestor IngestorSpec.

Lemma safeChar_underscore : safeChar 95 = true.
Proof. reflexivity. Qed.

Lemma safeChar_replaced c : safeChar (if safeChar c then c else 95%N) = true.
Proof. destruct (safeChar c) eqn:E; [exact E | exact safeChar_underscore]. Qed.

(** C7: filename sanitization (every character outside [A-Za-z0-9_.-]
    becomes an underscore) is idempotent. *)
Theorem safeFilename_idempotent (s : jsstring) :
  safeFilename (safeFilename s) = safeFilename s.
Proof.
  unfold safeFilename. induction s as [|c s IH]; [reflexivity|].
  cbn [map]. rewrite IH. f_equal.
  rewrite safeChar_replaced. reflexivity.
Qed.

Example safeFilename_example :
  safeFilename (lit "invoice (final) #3.pdf") = lit "invoice__final___3.pdf".
Proof. reflexivity. Qed.

(** The bucket of the attachments is always configured: the default of
    line 7 is a non-empty literal. *)
Lemma bucket_name_set w : truthy (JStr (ATTACHMENT_BUCKET_NAME w)) = true.
Proof.
  unfold ATTACHMENT_BUCKET_NAME.
  destruct (env_ATTACHMENT_BUCKET_NAME w) as [[|c s]|]; reflexivity.
Qed.

Lemma handler_first_record rt w e1 e2 :
  getPath rt e1 [lit "Records"; lit "0"] = getPath rt e2 [lit "Records"; lit "0"] ->
  handler rt w e1 = handler rt w e2.
Proof. intros H. unfold handler. rewrite H. reflexivity. Qed.

Lemma first_of_records rt fields first others props :
  getPath rt (JObj (<[lit "Records" := JArr (first :: others) props]> fields))
          [lit "Records"; lit "0"] = Return first.
Proof.
  cbn [getPath getProp getOwn bindR]. rewrite lookup_insert_eq. reflexivity.
Qed.

(** C10: the Mail Ingestor reads the first record of the event and no
    other (an event behaves as the event reduced to its first record, on
    every state), and when the first record lacks the SES message id or
    the S3 bucket or object member, it answers with status 400 and leaves
    the state of the object store as it was: no read, no write. *)
Theorem handler_reads_first_record_only rt w :
  (forall fields first others props,
     handler rt w (JObj (<[lit "Records" := JArr (first :: others) props]> fields))
     = handler rt w (JObj (<[lit "Records" := JArr [first] ∅]> fields))) /\
  (forall event record st,
     getPath rt event [lit "Records"; lit "0"] = Return record ->
     lacksStructure record ->
     exists r, handler rt w event st = (Return r, st) /\ statusCode r = 400%Z).
Proof.
  split.
  - intros. apply handler_first_record. rewrite !first_of_records. reflexivity.
  - intros event record st Hrec Hlack. unfold handler.
    rewrite bucket_name_set. cbn [negb]. rewrite Hrec.
    unfold bind at 1. unfold liftR at 1.
    destruct (truthy (andChain record [lit "ses"; lit "mail"; lit "messageId"])) eqn:Hses;
      cbn [negb]; [|eexists; split; reflexivity].
    assert (Hr : truthy record = true) by (eapply andChain_truthy_head; exact Hses).
    destruct Hlack as [H|[H|H]]; [congruence| |].
    + rewrite andChain_step in H by exact Hr. rewrite H. cbn [negb orb].
      eexists; split; reflexivity.
    + rewrite andChain_step in H by exact Hr.
      destruct (truthy (andChain (getOwn record (lit "s3")) [lit "bucket"])) eqn:Hb;
        cbn [negb orb]; [|eexists; split; reflexivity].
      assert (Hs3 : truthy (getOwn record (lit "s3")) = true)
        by (eapply andChain_truthy_head; exact Hb).
      cbn [andChain] in H. rewrite Hs3 in H. rewrite H. cbn [negb].
      eexists; split; reflexivity.
Qed.

(** A record of the mail-receiving service alone is refused, and the
    object store is not called. *)
Lemma handler_reads_first_record_only_witness :
  exists r,
    handler Fixtures.rt (Fixtures.ingestWorld Fixtures.addressedMail)
            Fixtures.sesOnlyEvent Fixtures.ingest0
    = (Return r, Fixtures.ingest0) /\ statusCode r = 400%Z.
Proof.
  apply (proj2 (handler_reads_first_record_only Fixtures.rt
                  (Fixtures.ingestWorld Fixtures.addressedMail))
           Fixtures.sesOnlyEvent
           (object [(lit "ses",
                     object [(lit "mail",
                              object [(lit "messageId", JStr (lit "M1"))])])])
           Fixtures.ingest0).
  - reflexivity.
  - right. left. reflexivity.
Defined.

(** *** The attachment loop *)

Lemma uploadAll_run rt w messageId todo :
  forall uploadPromises st,
  exists requests st',
    uploadAll rt w messageId todo uploadPromises st
    = (Return (uploadPromises ++ map (uploadPromise w) requests), st') /\
    calls st' = calls st ++ map PutObject requests /\
    Forall2 (storesAttachment rt w messageId) (List.filter isPdf todo) requests.
Proof.
  induction todo as [|a todo IH]; intros acc st.
  - exists [], st. cbn. rewrite !app_nil_r. repeat split. constructor.
  - cbn [uploadAll List.filter]. destruct (isPdf a) eqn:Hpdf.
    + unfold bind at 1.
      destruct (filenameOf rt w messageId a st) as [rname st1] eqn:Hname.
      assert (Hn : exists name, rname = Return name /\ calls st1 = calls st /\
                 match filename a with
                 | Some (c :: s) => name = c :: s
                 | Some [] | None =>
                     exists t, name = lit "attachment-" ++ ToString rt messageId ++ lit "-"
                                      ++ Z_to_jsstring t ++ lit ".pdf"
                 end).
      { revert Hname. unfold filenameOf.
        destruct (filename a) as [[|c s]|]; unfold bind, Date_now, ret;
          intros [= <- <-]; eexists; (split; [reflexivity|]); (split; [reflexivity|]);
          eauto. }
      destruct Hn as (name & -> & Hc1 & Hnm).
      unfold bind at 1, putObject at 1.
      set (request := {| Bucket := ATTACHMENT_BUCKET_NAME w;
                         Key := attachmentKey rt messageId name;
                         Body := content a;
                         ContentType := contentType a |}).
      destruct (IH (acc ++ [uploadPromise w request])
                  {| reads := reads st1; calls := calls st1 ++ [PutObject request] |})
        as (requests & st' & Hrun & Hcalls & Hall).
      exists (request :: requests), st'. split; [|split].
      * fold (uploadPromise w request). rewrite Hrun. cbn [map].
        rewrite <- app_assoc. reflexivity.
      * rewrite Hcalls. cbn [calls map]. rewrite Hc1, <- app_assoc. reflexivity.
      * constructor; [|exact Hall].
        repeat split. exists name. split; [reflexivity | exact Hnm].
    + apply IH.
Qed.

Lemma Promise_all_uploads w requests st :
  (forall request, In request requests -> s3_putObject_fault w request = None) ->
  Promise_all (map (uploadPromise w) requests) st = (Return (map (fun _ => tt) requests), st).
Proof.
  intros Hok. unfold Promise_all.
  assert (Hnone : firstRejected (map (uploadPromise w) requests) = None)
    by (clear Hok; induction requests; [reflexivity | exact IHrequests]).
  rewrite Hnone. clear Hnone.
  induction requests as [|request requests IH]; [reflexivity|].
  cbn [map pending uploadPromise runAll].
  unfold bind at 1, liftR at 1. rewrite (Hok request) by (left; reflexivity).
  unfold bind at 1. fold (uploadPromise w).
  rewrite IH by (intros r Hr; apply Hok; right; exact Hr). reflexivity.
Qed.

(** What the [try] block does with a message that was fetched and
    parsed, that has a sender and a recipient, when the object store
    accepts every upload: one upload per PDF attachment, in the order of
    the message, and none for the others. *)
Lemma tryBlock_stores_each_pdf_attachment rt w messageId sourceBucket sourceKey bytes mail st :
  s3_getObject w sourceBucket sourceKey = Return (Some bytes) ->
  simpleParser w (Buffer_toString_utf8 rt bytes) = Return mail ->
  from mail <> JUndefined -> from mail <> JNull ->
  to mail <> JUndefined -> to mail <> JNull ->
  (forall request, s3_putObject_fault w request = None) ->
  exists requests st',
    tryBlock rt w messageId sourceBucket sourceKey st
    = (Return {| statusCode := 200;
                 body := lit "Successfully processed email " ++ ToString rt messageId
                         ++ lit ". " ++ Z_to_jsstring (Z.of_nat (length requests))
                         ++ lit " PDF(s) uploaded." |}, st') /\
    calls st' = calls st ++ GetObject sourceBucket sourceKey :: map PutObject requests /\
    Forall2 (storesAttachment rt w messageId) (List.filter isPdf (attachments mail)) requests /\
    length requests = length (List.filter isPdf (attachments mail)).
Proof.
  intros Hget Hparse Hf1 Hf2 Ht1 Ht2 Hok.
  destruct (uploadAll_run rt w messageId (attachments mail) []
              {| reads := reads st; calls := calls st ++ [GetObject sourceBucket sourceKey] |})
    as (requests & st' & Hrun & Hcalls & Hall).
  exists requests, st'. split; [|split; [|split]].
  - unfold tryBlock. unfold bind at 1, getObject at 1. rewrite Hget.
    unfold bind at 1, liftR at 1. cbn [bodyToString]. rewrite Hparse.
    unfold bind at 1, liftR at 1.
    unfold bind at 1, liftR at 1.
    rewrite (getProp_not_nullish rt (from mail)) by assumption.
    unfold bind at 1, liftR at 1.
    rewrite (getProp_not_nullish rt (to mail)) by assumption.
    unfold bind at 1. rewrite Hrun. cbn [app].
    rewrite length_map.
    destruct (0 <? length requests)%nat.
    + unfold bind. rewrite Promise_all_uploads by (intros; apply Hok). reflexivity.
    + reflexivity.
  - rewrite Hcalls. cbn [calls]. rewrite <- app_assoc. reflexivity.
  - exact Hall.
  - symmetry. eapply Forall2_length. exact Hall.
Qed.

(** The example of the specification: a message M1 with [invoice.pdf]
    and [logo.png] stores [attachments/M1/invoice.pdf] only. *)
Example ingest_addressed_mail :
  handler Fixtures.rt (Fixtures.ingestWorld Fixtures.addressedMail)
          Fixtures.mailEvent Fixtures.ingest0
  = (Return {| statusCode := 200;
               body := lit "Successfully processed email M1. 1 PDF(s) uploaded." |},
     {| reads := 0;
        calls := [ GetObject (JStr (lit "raw-mail")) (lit "emails/M1");
                   PutObject {| Bucket := lit "attachments";
                                Key := lit "attachments/M1/invoice.pdf";
                                Body := content Fixtures.invoicePdf;
                                ContentType := lit "application/pdf" |} ] |}).
Proof. vm_compute. reflexivity. Qed.

(** C6, at a message the code mishandles.  The message has one PDF
    attachment and one other, and no [To] header.  The [try] block reads
    [parsedEmail.to.text] for its log line before it visits the
    attachments: the read throws, the handler answers 500, and the only
    call made to the object store is the fetch of the raw message.  The
    specification asks for one stored blob. *)
Theorem ingest_without_recipient_stores_nothing :
  length (List.filter isPdf (attachments Fixtures.blindCopyMail)) = 1 /\
  handler Fixtures.rt (Fixtures.ingestWorld Fixtures.blindCopyMail)
          Fixtures.mailEvent Fixtures.ingest0
  = (Return {| statusCode := 500;
               body := lit "Error processing email: Cannot read properties of undefined (reading 'text')" |},
     {| reads := 0;
        calls := [GetObject (JStr (lit "raw-mail")) (lit "emails/M1")] |}).
Proof. split; vm_compute; reflexivity. Qed.

End Ingestor.

(** ** The Document Extractor *)

Section Extractor.
Import JS Backend BackendSpec.

Lemma modelInstance_Some w :
  GEMINI_API_KEY w <> [] -> modelInstance w = Some Gemini_1_5_flash_latest.
Proof. unfold modelInstance. destruct (GEMINI_API_KEY w); [congruence | reflexivity]. Qed.

(** The check of line 153 accepts an answer that has content parts. *)
Lemma hasContentParts_valid rt resp :
  hasContentParts resp -> candidatesInvalid rt resp = Return false.
Proof.
  intros (c & rest & props & part & parts & props' & Hc & Hparts).
  assert (Htc : truthy c = true)
    by (eapply andChain_truthy_head; rewrite Hparts; reflexivity).
  rewrite andChain_step in Hparts by exact Htc.
  assert (Hcontent : truthy (getOwn c (lit "content")) = true)
    by (eapply andChain_truthy_head; rewrite Hparts; reflexivity).
  rewrite andChain_step in Hparts by exact Hcontent. cbn [andChain] in Hparts.
  unfold candidatesInvalid. rewrite Hc. cbn [truthy negb getProp bindR getPath].
  rewrite getOwn_length, getOwn_index0. cbn [strict_eq_zero Number_of_nat length].
  rewrite (getProp_truthy _ _ _ Htc). cbn [bindR]. rewrite Hcontent. cbn [negb].
  rewrite (getProp_truthy _ _ _ Hcontent). cbn [bindR]. rewrite Hparts. reflexivity.
Qed.

(** C8: when the extraction succeeds on a decoded object, the object
    returned is the decoded one with the four fields S3Bucket, S3Key,
    processingEngine and extractionTimestamp set, and every other field,
    TicketId among them, as it was decoded.  Nothing is asked of
    invoiceId: an object without it is returned all the same.  The only
    effect is the reading of the clock. *)
Theorem extraction_adds_four_fields rt w pdfBuffer s3Bucket s3Key st result resp jsonString decoded :
  GEMINI_API_KEY w <> [] ->
  generateContent w pdfBuffer = Return result ->
  response result = Some resp ->
  candidatesInvalid rt resp = Return false ->
  text resp = Return jsonString ->
  JSON_parse rt jsonString = Return (JObj decoded) ->
  exists extracted,
    processPDFWithGemini rt w pdfBuffer s3Bucket s3Key st = (Return (JObj extracted), tick st) /\
    extracted !! lit "S3Bucket" = Some s3Bucket /\
    extracted !! lit "S3Key" = Some (JStr s3Key) /\
    extracted !! lit "processingEngine" = Some (JStr (lit "Gemini-1.5-Flash-Latest")) /\
    extracted !! lit "extractionTimestamp" = Some (JStr (toISOString w (clock w (reads st)))) /\
    (forall k, ~ In k addedFields -> extracted !! k = decoded !! k) /\
    extracted !! lit "TicketId" = decoded !! lit "TicketId".
Proof.
  intros Hkey Hgen Hresp Hvalid Htext Hparse.
  eexists. split.
  - unfold processPDFWithGemini. rewrite (modelInstance_Some _ Hkey).
    unfold tryCatch, tryBlock, bind, liftR.
    rewrite Hgen, Hresp, Hvalid, Htext, Hparse.
    cbn. reflexivity.
  - assert (Hframe : forall k, ~ In k addedFields ->
      (<[lit "extractionTimestamp" := JStr (toISOString w (clock w (reads st)))]>
        (<[lit "processingEngine" := JStr (lit "Gemini-1.5-Flash-Latest")]>
          (<[lit "S3Key" := JStr s3Key]> (<[lit "S3Bucket" := s3Bucket]> decoded)))) !! k
      = decoded !! k).
    { intros k Hk. unfold addedFields in Hk. cbn [In] in Hk.
      rewrite !lookup_insert_ne by (intros E; apply Hk; rewrite E; tauto).
      reflexivity. }
    repeat split.
    + rewrite !lookup_insert_ne by (vm_compute; discriminate). apply lookup_insert_eq.
    + rewrite !lookup_insert_ne by (vm_compute; discriminate). apply lookup_insert_eq.
    + rewrite !lookup_insert_ne by (vm_compute; discriminate). apply lookup_insert_eq.
    + apply lookup_insert_eq.
    + exact Hframe.
    + apply Hframe. vm_compute. intros [H|[H|[H|[H|[]]]]]; discriminate.
Qed.

(** An invoice decoded without [invoiceId] is returned, with the four
    fields and still no [invoiceId] and no [TicketId]. *)
Lemma extraction_adds_four_fields_witness :
  exists extracted,
    processPDFWithGemini Fixtures.rt Fixtures.configured [Byte.x02]
      (JStr (lit "attachments")) (lit "inbox/anonymous.pdf") Fixtures.st0
    = (Return (JObj extracted), tick Fixtures.st0) /\
    extracted !! lit "S3Key" = Some (JStr (lit "inbox/anonymous.pdf")) /\
    extracted !! lit "currency" = Some (JStr (lit "EUR")) /\
    extracted !! lit "invoiceId" = None /\
    extracted !! lit "TicketId" = None.
Proof.
  destruct (extraction_adds_four_fields Fixtures.rt Fixtures.configured [Byte.x02]
              (JStr (lit "attachments")) (lit "inbox/anonymous.pdf") Fixtures.st0
              (Fixtures.answerWith (Return Fixtures.anonymousInvoice_json))
              {| candidates :=
                   JArr [object [(lit "content",
                                  object [(lit "parts",
                                           JArr [object [(lit "text", JStr (lit "..."))]] ∅)])]]
                        ∅;
                 text := Return Fixtures.anonymousInvoice_json;
                 promptFeedback := JUndefined |}
              Fixtures.anonymousInvoice_json
              (<[lit "currency" := JStr (lit "EUR")]> ∅))
    as (extracted & Hrun & _ & Hkey & _ & _ & Hframe & Hticket).
  - discriminate.
  - reflexivity.
  - reflexivity.
  - reflexivity.
  - reflexivity.
  - reflexivity.
  - exists extracted. split; [exact Hrun|]. split; [exact Hkey|].
    split; [|split].
    + rewrite Hframe; [reflexivity|].
      vm_compute. intros [H|[H|[H|[H|[]]]]]; discriminate.
    + rewrite Hframe; [reflexivity|].
      vm_compute. intros [H|[H|[H|[H|[]]]]]; discriminate.
    + rewrite Hticket. reflexivity.
Defined.

(** The [catch] block of the extractor ends on the unbound identifier. *)
Lemma catchBlock_throws rt s3Key err :
  catchBlock rt s3Key err = Throw (ReferenceError rt (lit "result is not defined")).
Proof.
  unfold catchBlock, result_in_catch.
  destruct (includes (message err) (lit "SAFETY")); reflexivity.
Qed.

Lemma emptyAnswer_invalid rt resp :
  emptyAnswer resp -> candidatesInvalid rt resp <> Return false.
Proof.
  unfold candidatesInvalid.
  intros [H|[[p H]|(c & rest & p & H & Hc)]]; rewrite H; cbn [negb truthy]; try discriminate.
  cbn [getProp bindR getPath]. rewrite getOwn_length, getOwn_index0.
  cbn [strict_eq_zero Number_of_nat length].
  destruct (truthy (getOwn c (lit "content"))) eqn:Hcontent.
  - pose proof (getOwn_truthy _ _ Hcontent) as Htc.
    rewrite (getProp_truthy _ _ _ Htc). cbn [bindR]. rewrite Hcontent. cbn [negb].
    rewrite (getProp_truthy _ _ _ Hcontent). cbn [bindR].
    cbn [andChain] in Hc. rewrite Htc, Hcontent in Hc.
    destruct Hc as [Hc|[p' Hc]]; rewrite Hc; cbn [negb truthy]; [discriminate|].
    cbn [getProp bindR]. rewrite getOwn_length. discriminate.
  - destruct (getProp rt c (lit "content")) as [content|e] eqn:Hg; cbn [bindR]; [|discriminate].
    assert (content = getOwn c (lit "content")) as ->
      by (destruct c; cbn [getProp] in Hg; congruence).
    rewrite Hcontent. discriminate.
Qed.

Lemma tryBlock_invalid_throws rt w pdfBuffer s3Bucket s3Key st result resp :
  generateContent w pdfBuffer = Return result -> response result = Some resp ->
  candidatesInvalid rt resp <> Return false ->
  exists e, tryBlock rt w pdfBuffer s3Bucket s3Key st = (Throw e, st).
Proof.
  intros Hg Hr Hc. unfold tryBlock, bind, liftR, throw. rewrite Hg, Hr.
  destruct (candidatesInvalid rt resp) as [[|]|e]; [eauto | congruence | eauto].
Qed.

Lemma tryBlock_failure rt w pdfBuffer s3Bucket s3Key st :
  ExtractionFailure rt w pdfBuffer -> GEMINI_API_KEY w <> [] ->
  exists e, tryBlock rt w pdfBuffer s3Bucket s3Key st = (Throw e, st).
Proof.
  intros [Hk|e Hg|result Hg Hr|result resp Hg Hr He|result resp Hg Hr Hc Hb
         |result resp e Hg Hr Ht|result resp js e Hg Hr Ht Hp] Hkey.
  - congruence.
  - unfold tryBlock, bind, liftR. rewrite Hg. eauto.
  - unfold tryBlock, bind, liftR, throw. rewrite Hg, Hr. eauto.
  - eapply tryBlock_invalid_throws; eauto using emptyAnswer_invalid.
  - eapply tryBlock_invalid_throws; eauto. apply emptyAnswer_invalid. left. exact Hc.
  - destruct (candidatesInvalid rt resp) as [[|]|e'] eqn:Hc;
      try (eapply tryBlock_invalid_throws; eauto; congruence).
    unfold tryBlock, bind, liftR. rewrite Hg, Hr, Hc, Ht. eauto.
  - destruct (candidatesInvalid rt resp) as [[|]|e'] eqn:Hc;
      try (eapply tryBlock_invalid_throws; eauto; congruence).
    unfold tryBlock, bind, liftR, tryCatch, throw. rewrite Hg, Hr, Hc, Ht, Hp. eauto.
Qed.

(** What the code does on the failures that reach its [catch] block:
    whatever failed, the error thrown is the ReferenceError on [result]. *)
Lemma extraction_failure_in_try rt w pdfBuffer s3Bucket s3Key st :
  ExtractionFailure rt w pdfBuffer -> GEMINI_API_KEY w <> [] ->
  processPDFWithGemini rt w pdfBuffer s3Bucket s3Key st
  = (Throw (ReferenceError rt (lit "result is not defined")), st).
Proof.
  intros Hf Hkey.
  destruct (tryBlock_failure rt w pdfBuffer s3Bucket s3Key st Hf Hkey) as [e He].
  unfold processPDFWithGemini. rewrite (modelInstance_Some _ Hkey).
  unfold tryCatch. rewrite He. unfold liftR. rewrite catchBlock_throws. reflexivity.
Qed.

(** C4 fails on the code.  A request the backend declines, supplying the
    reason SAFETY, makes the extractor throw an error that does not name
    SAFETY; a payload that is not JSON makes it throw an error that
    carries neither the message of the failure nor the key of the
    document.  Both times the error is the ReferenceError of the [catch]
    block, which reads the [result] declared inside the [try]. *)
Theorem extraction_error_hides_reason_and_key :
  (generateContent Fixtures.configured [Byte.x04] = Return Fixtures.declinedAnswer /\
   blockReason Fixtures.rt Fixtures.declinedAnswer = Return (JStr (lit "SAFETY")) /\
   exists e,
     processPDFWithGemini Fixtures.rt Fixtures.configured [Byte.x04]
       (JStr (lit "attachments")) (lit "inbox/declined.pdf") Fixtures.st0
     = (Throw e, Fixtures.st0) /\
     name e = lit "ReferenceError" /\
     message e = lit "result is not defined" /\
     includes (message e) (lit "SAFETY") = false) /\
  (generateContent Fixtures.configured [Byte.x03]
   = Return (Fixtures.answerWith (Return (lit "not json"))) /\
   JSON_parse Fixtures.rt (lit "not json") = Throw Fixtures.syntaxError /\
   exists e,
     processPDFWithGemini Fixtures.rt Fixtures.configured [Byte.x03]
       (JStr (lit "attachments")) (lit "inbox/garbled.pdf") Fixtures.st0
     = (Throw e, Fixtures.st0) /\
     name e = lit "ReferenceError" /\
     message e = lit "result is not defined" /\
     includes (message e) (lit "Failed to parse JSON response from Gemini AI.") = false /\
     includes (message e) (message Fixtures.syntaxError) = false /\
     includes (message e) (lit "inbox/garbled.pdf") = false).
Proof.
  split; (split; [reflexivity|]); (split; [reflexivity|]);
    eexists; repeat split; vm_compute; reflexivity.
Qed.

End Extractor.

(** ** The Pipeline Orchestrator *)

Section Orchestrator.
Import JS Backend BackendSpec.

(** *** What the extraction does to the state *)

Lemma tryBlock_state rt w pdfBuffer s3Bucket s3Key st r st' :
  tryBlock rt w pdfBuffer s3Bucket s3Key st = (r, st') ->
  match r with
  | Return v =>
      st' = tick st /\
      ((exists props, v = JObj props) \/ (exists elems props, v = JArr elems props))
  | Throw _ => st' = st
  end.
Proof.
  unfold tryBlock, bind, liftR, tryCatch, throw, ret, Date_new_toISOString, Date_now.
  destruct (generateContent w pdfBuffer) as [result|e]; [|intros [= <- <-]; reflexivity].
  destruct (response result) as [resp|]; [|intros [= <- <-]; reflexivity].
  destruct (candidatesInvalid rt resp) as [[|]|e]; try (intros [= <- <-]; reflexivity).
  destruct (text resp) as [js|e]; [|intros [= <- <-]; reflexivity].
  destruct (JSON_parse rt js) as [d|e]; [|intros [= <- <-]; reflexivity].
  destruct (setProp rt d _ _) as [d1|e] eqn:H1; [|intros [= <- <-]; reflexivity].
  destruct (setProp rt d1 _ _) as [d2|e] eqn:H2; [|intros [= <- <-]; reflexivity].
  destruct (setProp rt d2 _ _) as [d3|e] eqn:H3; [|intros [= <- <-]; reflexivity].
  unfold bind, ret. cbn beta iota.
  destruct (setProp rt d3 _ _) as [d4|e] eqn:H4.
  - intros [= <- <-]. split; [reflexivity|]. eapply setProp_shape; exact H4.
  - exfalso. pose proof (setProp_shape _ _ _ _ _ H3) as Hshape.
    destruct Hshape as [[p ->]|(el & p & ->)]; discriminate H4.
Qed.

(** The extractor writes nothing: it reads the clock once when it
    returns, and not at all when it throws. *)
Lemma extraction_state rt w pdfBuffer s3Bucket s3Key st r st' :
  processPDFWithGemini rt w pdfBuffer s3Bucket s3Key st = (r, st') ->
  match r with
  | Return v =>
      st' = tick st /\
      ((exists props, v = JObj props) \/ (exists elems props, v = JArr elems props))
  | Throw _ => st' = st
  end.
Proof.
  unfold processPDFWithGemini.
  destruct (modelInstance w); [|intros [= <- <-]; reflexivity].
  unfold tryCatch.
  destruct (tryBlock rt w pdfBuffer s3Bucket s3Key st) as [[v|e] st1] eqn:Ht;
    pose proof (tryBlock_state _ _ _ _ _ _ _ _ Ht) as Hs; cbn in Hs.
  - intros [= <- <-]. exact Hs.
  - unfold liftR. rewrite catchBlock_throws. intros [= <- <-]. exact Hs.
Qed.

(** *** The store wrapper *)

Lemma saveToDynamo_object rt w props st :
  saveToDynamo rt w (JObj props) st =
  (match db_put_fault w (JObj props) with
   | Some e => Throw e
   | None =>
       Return (object [(lit "success", JBool true);
                       (lit "id", orElse (getOwn (JObj props) (lit "TicketId"))
                                    (if truthy (getOwn (JObj props) (lit "TicketId"))
                                     then JUndefined
                                     else getOwn (JObj props) (lit "invoiceId")))])
   end, afterPut w (JObj props) st).
Proof.
  unfold saveToDynamo, bind, tryCatch, db_put, throw, liftR, ret, afterPut.
  cbn [Object_keys].
  destruct (db_put_fault w (JObj props)); [reflexivity|].
  cbn [getProp]. destruct (truthy (getOwn (JObj props) (lit "TicketId"))); reflexivity.
Qed.

(** *** The [catch] block of an item *)

(** It reads the clock twice, hands one Error Record to the table, and
    returns the failure outcome whether or not the table took the
    record. *)
Lemma onFailure_run rt w bucket key o err st :
  onFailure rt w bucket key o err st =
  (Return {| success := false; key := key; error := Some (message err);
             ticketId := JStr (errorTicket w key st) |},
   afterPut w (errorRecordAt w bucket key o err st) (tick (tick st))).
Proof.
  unfold onFailure, bind, tryCatch, Date_new_toISOString, Date_now, ret.
  cbn [reads]. fold (errorTicket w key st).
  unfold bind, ret. cbn [reads].
  unfold errorRecord at 1. unfold object at 1.
  rewrite saveToDynamo_object.
  unfold errorRecordAt, errorRecord, object.
  destruct (db_put_fault w _); reflexivity.
Qed.

Lemma processObject_failure rt w bucket key st o e :
  FetchOrExtractionFails rt w bucket key st o e ->
  processObject rt w bucket key st = onFailure rt w bucket key o e st.
Proof.
  intros [e' Hf|o' Hf Hb|o' pdf e' st1 Hf Hb Hx]; unfold processObject; rewrite Hf.
  - reflexivity.
  - unfold tryCatch, afterFetch. rewrite Hb. reflexivity.
  - unfold tryCatch, afterFetch. rewrite Hb. unfold bind at 1. rewrite Hx.
    pose proof (extraction_state _ _ _ _ _ _ _ _ Hx) as Hs. cbn in Hs. subst st1.
    reflexivity.
Qed.

Lemma errorTicket_nonempty w key st : errorTicket w key st <> [].
Proof. unfold errorTicket. discriminate. Qed.

(** C3: for an item whose fetch or extraction fails, the callback
    returns the failure outcome (it never throws) after exactly one write
    was attempted: the Error Record, whose TicketId is the non-empty
    [error-<key>-<timestamp>], whose Status is "Error-ProcessingFailed",
    and which carries the message of the error, its stack cut to at most
    1000 characters (null when the error has none), the bucket and the
    key, and a timestamp.  When the table refuses the record, the table
    is unchanged and the outcome is returned all the same. *)
Theorem failed_item_writes_one_error_record rt w bucket key st o e :
  FetchOrExtractionFails rt w bucket key st o e ->
  let ticket := errorTicket w key st in
  let record := errorRecordAt w bucket key o e st in
  processObject rt w bucket key st
  = (Return {| success := false; key := key; error := Some (message e);
               ticketId := JStr ticket |},
     afterPut w record (tick (tick st))) /\
  attempted (afterPut w record (tick (tick st))) = attempted st ++ [record] /\
  stored (afterPut w record (tick (tick st)))
  = match db_put_fault w record with
    | Some _ => stored st
    | None => stored st ++ [record]
    end /\
  ticket = lit "error-" ++ key ++ lit "-" ++ Z_to_jsstring (clock w (reads st)) /\
  ticket <> [] /\
  getOwn record (lit "TicketId") = JStr ticket /\
  getOwn record (lit "Status") = JStr (lit "Error-ProcessingFailed") /\
  getOwn record (lit "ErrorDetails") = JStr (message e) /\
  getOwn record (lit "ErrorStack")
  = match stack e with
    | Some (c :: s) => JStr (take 1000 (c :: s))
    | Some [] | None => JNull
    end /\
  (forall trace, getOwn record (lit "ErrorStack") = JStr trace -> length trace <= 1000) /\
  getOwn record (lit "S3Bucket") = bucket /\
  getOwn record (lit "S3Key") = JStr key /\
  getOwn record (lit "Timestamp") = JStr (toISOString w (clock w (S (reads st)))).
Proof.
  intros Hf ticket record.
  assert (Hstack : getOwn record (lit "ErrorStack")
                   = match stack e with
                     | Some (c :: s) => JStr (take 1000 (c :: s))
                     | Some [] | None => JNull
                     end) by reflexivity.
  repeat split; try reflexivity.
  - rewrite (processObject_failure _ _ _ _ _ _ _ Hf). apply onFailure_run.
  - apply errorTicket_nonempty.
  - intros trace. rewrite Hstack.
    destruct (stack e) as [[|c s]|]; try discriminate.
    assert (Hlen : length (take 1000 (c :: s)) <= 1000) by (rewrite length_take; lia).
    intros [= <-]. exact Hlen.
Qed.

(** The example of the specification: the payload cannot be decoded, and
    the record written has a TicketId that starts with [error-] and the
    Status "Error-ProcessingFailed". *)
Lemma failed_item_writes_one_error_record_witness :
  exists out record,
    processObject Fixtures.rt Fixtures.configured (JStr (lit "attachments"))
      (lit "inbox/garbled.pdf") Fixtures.st0
    = (Return out, {| reads := 2; attempted := [record]; stored := [record] |}) /\
    success out = false /\
    ticketId out = JStr (lit "error-inbox/garbled.pdf-1700000000000") /\
    getOwn record (lit "TicketId") = JStr (lit "error-inbox/garbled.pdf-1700000000000") /\
    getOwn record (lit "Status") = JStr (lit "Error-ProcessingFailed").
Proof.
  destruct (failed_item_writes_one_error_record Fixtures.rt Fixtures.configured
              (JStr (lit "attachments")) (lit "inbox/garbled.pdf") Fixtures.st0
              (Some {| Body := Some [Byte.x03];
                       ContentLength := JNum (Number_of_nat 1);
                       ContentType := JStr (lit "application/pdf") |})
              (ReferenceError Fixtures.rt (lit "result is not defined")))
    as (Hrun & _ & _ & _ & _ & Hticket & Hstatus & _).
  - eapply (ExtractionFails _ _ _ _ _ _ [Byte.x03] _ Fixtures.st0); reflexivity.
  - eexists _, _. split; [exact Hrun|]. split; [reflexivity|]. split; [reflexivity|].
    split; [exact Hticket | exact Hstatus].
Defined.

(** *** The success path of an item *)

Lemma itemToSave_run rt w extracted key st :
  (exists props, extracted = JObj props) \/ (exists elems props, extracted = JArr elems props) ->
  itemToSave rt w extracted key st =
  if truthy (getOwn extracted (lit "invoiceId"))
  then (Return (JObj (<[lit "TicketId" := getOwn extracted (lit "invoiceId")]> (spread extracted))),
        st)
  else (Return (JObj (<[lit "TicketId" := JStr (fallbackTicket w key st)]> (spread extracted))),
        tick st).
Proof.
  intros Hs. unfold itemToSave, bind, liftR. rewrite (getProp_object _ _ _ Hs).
  destruct (truthy (getOwn extracted (lit "invoiceId"))); reflexivity.
Qed.

Lemma afterFetch_Return rt w bucket key o st out st' :
  afterFetch rt w bucket key o st = (Return out, st') ->
  success out = true /\ key = Backend.key out /\
  exists pdfBuffer extracted item st1,
    Body o = Some pdfBuffer /\
    processPDFWithGemini rt w pdfBuffer bucket key st = (Return extracted, tick st) /\
    itemToSave rt w extracted key (tick st) = (Return (JObj item), st1) /\
    db_put_fault w (JObj item) = None /\
    st' = afterPut w (JObj item) st1 /\
    ticketId out = getOwn (JObj item) (lit "TicketId").
Proof.
  unfold afterFetch. destruct (Body o) as [pdf|]; [|discriminate].
  unfold bind at 1.
  destruct (processPDFWithGemini rt w pdf bucket key st) as [[ext|e] st1] eqn:Hx;
    [|discriminate].
  pose proof (extraction_state _ _ _ _ _ _ _ _ Hx) as [-> Hshape].
  unfold bind at 1. rewrite (itemToSave_run _ _ _ _ _ Hshape).
  destruct (truthy (getOwn ext (lit "invoiceId"))) eqn:Hinv;
    unfold bind at 1; rewrite saveToDynamo_object;
    (destruct (db_put_fault w _) eqn:Hput; [discriminate|]);
    unfold bind, liftR, ret; cbn [getProp];
    intros [= <- <-]; (split; [reflexivity|]); (split; [reflexivity|]);
    eexists pdf, ext, _, _; rewrite (itemToSave_run _ _ _ _ _ Hshape), Hinv;
    repeat split; try reflexivity; assumption.
Qed.

(** C2: when the callback reports success, the fetch returned a
    document, the extraction returned an object, and exactly one item was
    handed to the table and stored: the extracted object with its
    TicketId set.  The TicketId is the extracted invoiceId when that is a
    non-empty string, and [fallback-<key>-<timestamp>], which contains
    the key of the object, when invoiceId is absent, null or the empty
    string.  (invoiceId is a string in the extraction schema; for a value
    of another type the choice follows the truth value JavaScript gives
    it, last conjunct but one.) *)
Theorem persisted_ticket_id rt w bucket key st out st' :
  processObject rt w bucket key st = (Return out, st') ->
  success out = true ->
  exists o pdfBuffer extracted item,
    s3_getObject w bucket key = Return o /\
    Body o = Some pdfBuffer /\
    processPDFWithGemini rt w pdfBuffer bucket key st = (Return extracted, tick st) /\
    attempted st' = attempted st ++ [JObj item] /\
    stored st' = stored st ++ [JObj item] /\
    ticketId out = getOwn (JObj item) (lit "TicketId") /\
    (forall s, getOwn extracted (lit "invoiceId") = JStr s -> s <> [] ->
       getOwn (JObj item) (lit "TicketId") = JStr s) /\
    (getOwn extracted (lit "invoiceId") = JUndefined \/
     getOwn extracted (lit "invoiceId") = JNull \/
     getOwn extracted (lit "invoiceId") = JStr [] ->
       getOwn (JObj item) (lit "TicketId") = JStr (fallbackTicket w key (tick st)) /\
       fallbackTicket w key (tick st)
       = lit "fallback-" ++ key ++ lit "-" ++ Z_to_jsstring (clock w (S (reads st))) /\
       includes (fallbackTicket w key (tick st)) key = true) /\
    getOwn (JObj item) (lit "TicketId")
    = (if truthy (getOwn extracted (lit "invoiceId"))
       then getOwn extracted (lit "invoiceId")
       else JStr (fallbackTicket w key (tick st))) /\
    (forall k, k <> lit "TicketId" -> item !! k = spread extracted !! k).
Proof.
  unfold processObject.
  destruct (s3_getObject w bucket key) as [o|e] eqn:Hf;
    [|rewrite onFailure_run; intros [= <- <-]; discriminate].
  unfold tryCatch.
  destruct (afterFetch rt w bucket key o st) as [[r|e] st1] eqn:Ha;
    [|rewrite onFailure_run; intros [= <- <-]; discriminate].
  intros [= <- <-] _.
  destruct (afterFetch_Return _ _ _ _ _ _ _ _ Ha)
    as (_ & _ & pdf & ext & item & st2 & Hb & Hx & Hi & Hput & -> & Ht).
  pose proof (extraction_state _ _ _ _ _ _ _ _ Hx) as [_ Hshape].
  rewrite (itemToSave_run _ _ _ _ _ Hshape) in Hi.
  exists o, pdf, ext, item.
  assert (Hinsert : forall t st3,
            (Return (JObj (<[lit "TicketId" := t]> (spread ext))), st3)
            = (Return (JObj item), st2) ->
            item = <[lit "TicketId" := t]> (spread ext) /\ attempted st2 = attempted st3
            /\ stored st2 = stored st3).
  { intros t st3 [= <- <-]. auto. }
  assert (Hfb : fallbackTicket w key (tick st)
                = lit "fallback-" ++ key ++ lit "-" ++ Z_to_jsstring (clock w (S (reads st))))
    by reflexivity.
  destruct (truthy (getOwn ext (lit "invoiceId"))) eqn:Hinv;
    apply Hinsert in Hi as (-> & Hat & Hst);
    unfold afterPut; cbn [attempted stored]; rewrite Hput, Hat, Hst; cbn [attempted stored tick];
    do 6 (split; [first [assumption | reflexivity]|]);
    cbn [getOwn]; rewrite lookup_insert_eq; cbn [orUndefined default];
    (split; [|split; [|split; [reflexivity|intros k Hk; apply lookup_insert_ne; congruence]]]).
  - intros s Hs _. exact Hs.
  - intros [H|[H|H]]; rewrite H in Hinv; discriminate.
  - intros s Hs Hne. rewrite Hs in Hinv. destruct s; [congruence | discriminate].
  - intros _. split; [reflexivity|]. split; [exact Hfb|]. apply includes_app.
Qed.

(** The example of the specification: the extraction returns an invoice
    whose invoiceId is INV-42, and the record persisted has the TicketId
    INV-42. *)
Lemma persisted_ticket_id_witness :
  exists out st',
    processObject Fixtures.rt Fixtures.configured (JStr (lit "attachments"))
      (lit "inbox/invoice 42.pdf") Fixtures.st0 = (Return out, st') /\
    success out = true /\
    ticketId out = JStr (lit "INV-42") /\
    exists item,
      stored st' = [JObj item] /\
      getOwn (JObj item) (lit "TicketId") = JStr (lit "INV-42").
Proof.
  pose (out := {| success := true; key := lit "inbox/invoice 42.pdf"; error := None;
                  ticketId := JStr (lit "INV-42") |}).
  pose (run := processObject Fixtures.rt Fixtures.configured (JStr (lit "attachments"))
                 (lit "inbox/invoice 42.pdf") Fixtures.st0).
  assert (Hrun : run = (Return out, snd run)) by (vm_compute; reflexivity).
  destruct (persisted_ticket_id Fixtures.rt Fixtures.configured (JStr (lit "attachments"))
              (lit "inbox/invoice 42.pdf") Fixtures.st0 out (snd run) Hrun eq_refl)
    as (o & pdf & extracted & item & _ & _ & _ & _ & Hsto & Hout & _).
  exists out, (snd run). split; [exact Hrun|]. split; [reflexivity|]. split; [reflexivity|].
  exists item. split; [exact Hsto|]. rewrite <- Hout. reflexivity.
Defined.

(** An invoice extracted without invoiceId is persisted under the
    fallback ticket. *)
Example anonymous_invoice_gets_fallback_ticket :
  fst (processObject Fixtures.rt Fixtures.configured (JStr (lit "attachments"))
         (lit "inbox/anonymous.pdf") Fixtures.st0)
  = Return {| success := true; key := lit "inbox/anonymous.pdf"; error := None;
              ticketId := JStr (lit "fallback-inbox/anonymous.pdf-1700000000001") |}.
Proof. vm_compute. reflexivity. Qed.

(** *** The batch *)

Lemma invoiceRecord_run rt w extracted key st :
  (exists props, extracted = JObj props) \/ (exists elems props, extracted = JArr elems props) ->
  exists st1, itemToSave rt w extracted key st = (Return (invoiceRecord w extracted key st), st1).
Proof.
  intros Hs. rewrite (itemToSave_run _ _ _ _ _ Hs). unfold invoiceRecord.
  destruct (truthy (getOwn extracted (lit "invoiceId"))); eauto.
Qed.

Lemma Outcome_toJS out : Outcome (ItemResult_toJS out) (Backend.key out) (success out).
Proof.
  unfold Outcome, ItemResult_toJS. destruct (error out); split; reflexivity.
Qed.

(** The callback always returns an outcome for its item, marked failure
    exactly when the item fails. *)
Lemma processObject_outcome rt w bucket key st :
  exists out st',
    processObject rt w bucket key st = (Return out, st') /\
    Backend.key out = key /\
    (success out = false <-> ItemFails rt w bucket key st).
Proof.
  unfold processObject.
  destruct (s3_getObject w bucket key) as [o|e] eqn:Hf.
  2:{ rewrite onFailure_run. eexists _, _. split; [reflexivity|]. split; [reflexivity|].
      split; [intros _; eapply FetchThrows; exact Hf | reflexivity]. }
  unfold tryCatch, afterFetch.
  destruct (Body o) as [pdf|] eqn:Hb.
  2:{ unfold throw. rewrite onFailure_run.
      eexists _, _. split; [reflexivity|]. split; [reflexivity|].
      split; [intros _; eapply NoBuffer; eassumption | reflexivity]. }
  unfold bind at 1.
  destruct (processPDFWithGemini rt w pdf bucket key st) as [[ext|e] st1] eqn:Hx.
  2:{ rewrite onFailure_run.
      eexists _, _. split; [reflexivity|]. split; [reflexivity|].
      split; [intros _; eapply ExtractionThrows; eassumption | reflexivity]. }
  pose proof (extraction_state _ _ _ _ _ _ _ _ Hx) as [_ Hshape].
  destruct (invoiceRecord_run rt w ext key st1 Hshape) as [st2 Hi].
  unfold bind at 1. rewrite Hi. unfold invoiceRecord at 1 2.
  unfold bind at 1. rewrite saveToDynamo_object.
  fold (invoiceRecord w ext key st1).
  destruct (db_put_fault w (invoiceRecord w ext key st1)) as [e|] eqn:Hput.
  - rewrite onFailure_run.
    eexists _, _. split; [reflexivity|]. split; [reflexivity|].
    split; [intros _; eapply RecordRefused; eassumption | reflexivity].
  - unfold bind, liftR, ret. unfold invoiceRecord at 1. cbn [getProp].
    eexists _, _. split; [reflexivity|]. split; [reflexivity|].
    cbn [success]. split; [discriminate|].
    intros [e He|o' Ho Hb'|o' pdf' e st' Ho Hb' Hx'|o' pdf' ext' st' e Ho Hb' Hx' Hput'].
    + congruence.
    + congruence.
    + congruence.
    + assert (o' = o) by congruence. subst o'.
      assert (pdf' = pdf) by congruence. subst pdf'.
      rewrite Hx in Hx'. injection Hx' as <- <-. congruence.
Qed.

Lemma S3Record_processRecord rt w record bucket key :
  S3Record rt record bucket key ->
  processRecord rt w record = Return (processObject rt w bucket key).
Proof.
  intros (raw & Hb & Hk & Hd). unfold processRecord, bucketAndKey.
  rewrite Hb, Hk. cbn [bindR call_replace]. rewrite Hd. reflexivity.
Qed.

Lemma Batch_length rt w st records outcomes st' :
  Batch rt w st records outcomes st' -> length outcomes = length records.
Proof. induction 1; cbn [length]; congruence. Qed.

Lemma Promise_all_records rt w records st :
  Forall (fun record => exists bucket key, S3Record rt record bucket key) records ->
  exists results st',
    Promise_all (map (processRecord rt w) records) st = (Return results, st') /\
    Batch rt w st records (map ItemResult_toJS results) st'.
Proof.
  intros Hall. unfold Promise_all.
  assert (Hnone : firstRejected (map (processRecord rt w) records) = None).
  { induction Hall as [|record records (b & k & Hr) _ IH]; [reflexivity|].
    cbn [map firstRejected]. rewrite (S3Record_processRecord _ w _ _ _ Hr). exact IH. }
  rewrite Hnone. clear Hnone. revert st.
  induction Hall as [|record records (b & k & Hr) _ IH]; intros st.
  - exists [], st. split; [reflexivity | constructor].
  - cbn [map pending]. rewrite (S3Record_processRecord _ w _ _ _ Hr). cbn [pending runAll].
    destruct (processObject_outcome rt w b k st) as (out & st1 & Hrun & Hkey & Hfails).
    destruct (IH st1) as (results & st' & Hrest & Hbatch).
    exists (out :: results), st'. split.
    + unfold bind at 1. rewrite Hrun. unfold bind at 1. rewrite Hrest. reflexivity.
    + cbn [map]. apply (Batch_item rt w st record b k _ (success out)).
      * exact Hr.
      * rewrite <- Hkey. apply Outcome_toJS.
      * exact Hfails.
      * rewrite Hrun. exact Hbatch.
Qed.

(** C1: for an event whose K records are records of storage
    notifications, whatever items fail, the batch call returns (it does
    not throw) a response of status 200 whose body is the serialization
    of an object with the message "Processing completed." and a list
    [results] of K outcomes, one per record and in their order.  The
    outcome of a record carries the key of its item and a [success]
    member that is false exactly when the item failed (its fetch threw,
    the fetched object had no Buffer, its extraction threw, or the table
    refused its record), and true otherwise: no item is skipped because
    another one failed. *)
Theorem batch_isolates_item_failures rt w event records props st :
  getProp rt event (lit "Records") = Return (JArr records props) ->
  Forall (fun record => exists bucket key, S3Record rt record bucket key) records ->
  exists r outcomes st',
    processEmail rt w event st = (Return r, st') /\
    statusCode r = 200%Z /\
    body r = JSON_stringify rt
               (object [ (lit "message", JStr (lit "Processing completed."));
                         (lit "results", JArr outcomes ∅) ]) /\
    length outcomes = length records /\
    Batch rt w st records outcomes st'.
Proof.
  intros Hrec Hall.
  destruct (Promise_all_records rt w records st Hall) as (results & st' & Hrun & Hbatch).
  eexists _, (map ItemResult_toJS results), st'. split; [|split; [|split; [|split]]].
  - unfold processEmail. unfold bind at 1, liftR at 1. rewrite Hrec.
    unfold bind at 1, liftR at 1. cbn [call_map].
    unfold tryCatch, bind. rewrite Hrun. reflexivity.
  - reflexivity.
  - reflexivity.
  - eapply Batch_length. exact Hbatch.
  - exact Hbatch.
Qed.

(** A batch of three: one invoice, one payload that cannot be decoded,
    one object that is gone. *)
Lemma batch_isolates_item_failures_witness :
  exists r outcomes st',
    processEmail Fixtures.rt Fixtures.configured
      (Fixtures.s3Event Fixtures.threeKeys) Fixtures.st0 = (Return r, st') /\
    statusCode r = 200%Z /\
    body r = JSON_stringify Fixtures.rt
               (object [ (lit "message", JStr (lit "Processing completed."));
                         (lit "results", JArr outcomes ∅) ]) /\
    length outcomes = 3 /\
    Batch Fixtures.rt Fixtures.configured Fixtures.st0
      (map Fixtures.s3Record Fixtures.threeKeys) outcomes st'.
Proof.
  apply (batch_isolates_item_failures Fixtures.rt Fixtures.configured
           (Fixtures.s3Event Fixtures.threeKeys)
           (map Fixtures.s3Record Fixtures.threeKeys)
           ∅ Fixtures.st0).
  - reflexivity.
  - repeat constructor; eexists _, _, _; repeat split; reflexivity.
Defined.

(** The outcomes of that batch: one success and two failures, each with
    the message of its own error. *)
Example batch_of_three_outcomes :
  match fst (Promise_all
               (map (processRecord Fixtures.rt Fixtures.configured)
                  (map Fixtures.s3Record Fixtures.threeKeys))
               Fixtures.st0) with
  | Return results => map (fun out => (success out, Backend.key out, error out)) results
  | Throw _ => []
  end
  = [ (true, lit "inbox/invoice 42.pdf", None);
      (false, lit "inbox/garbled.pdf", Some (lit "result is not defined"));
      (false, lit "inbox/gone.pdf", Some (lit "The specified key does not exist.")) ].
Proof. vm_compute. reflexivity. Qed.

(** Outside the storage notifications: a key that is not URL-encoded
    makes its callback reject before the [try], and the batch answers 500
    without an outcome for any item. *)
Example batch_with_malformed_key :
  processEmail Fixtures.rt Fixtures.configured
    (Fixtures.s3Event Fixtures.malformedKeys) Fixtures.st0
  = (Return {| statusCode := 500;
               body := criticalBody Fixtures.rt (URIError Fixtures.rt (lit "URI malformed")) |},
     Fixtures.st0).
Proof. vm_compute. reflexivity. Qed.

End Orchestrator.

(* ================================================================== *)
(** * Further properties *)
(* ================================================================== *)

(** ** The Query Service: the other request shapes *)

Section QueryServiceShapes.
Import JS ApiBackend ApiSpec ApiShapes.

(** What the handler does with a GET: the three branches inside its
    [try], and the [catch]. *)
Lemma handler_GET rt w event :
  isGet event ->
  handler rt w event
  = tryCatchR
      (if truthy (ticketOf event) then lookupById rt w (ticketOf event)
       else if asksForAll event then listAll rt w
       else Return (createResponse rt 400 badRequestPayload))
      (fun error => Return (createResponse rt 500 (serverErrorPayload error))).
Proof.
  intros Hget. unfold handler.
  destruct (getOwn_strict_eq_not_nullish _ _ _ Hget) as [Hu Hn].
  rewrite !getProp_not_nullish by assumption. cbn [bindR].
  apply strict_eq_str_eq in Hget. rewrite Hget.
  change (strict_eq_str (JStr (lit "GET")) (lit "OPTIONS")) with false.
  change (strict_eq_str (JStr (lit "GET")) (lit "GET")) with true.
  reflexivity.
Qed.

(** X1: a pre-flight request (method OPTIONS) is answered with status
    200, the fixed headers and the serialization of
    [{ message: "CORS preflight successful" }] for body, whatever the
    store holds or does: the response is the same in every world, so no
    read of the store decides it. *)
Theorem preflight_needs_no_store rt event :
  strict_eq_str (getOwn event (lit "httpMethod")) (lit "OPTIONS") = true ->
  exists r,
    answers rt r 200 preflightPayload /\
    forall w, handler rt w event = Return r.
Proof.
  intros Hopt. exists (createResponse rt 200 preflightPayload).
  split; [repeat split|].
  intros w. unfold handler.
  destruct (getOwn_strict_eq_not_nullish _ _ _ Hopt) as [Hu Hn].
  rewrite !getProp_not_nullish by assumption. cbn [bindR].
  rewrite Hopt. reflexivity.
Qed.

Lemma preflight_needs_no_store_witness :
  exists r,
    answers Fixtures.rt r 200 preflightPayload /\
    forall w, handler Fixtures.rt w Fixtures.preflight = Return r.
Proof.
  apply (preflight_needs_no_store Fixtures.rt Fixtures.preflight).
  reflexivity.
Defined.



(** X3: a GET without a ticket id whose path is [/invoices], or whose
    query asks [list=all], is answered with status 200, the fixed headers
    and the serialization of an object holding the items and the count
    the scan of the table returned, and the note about pagination. *)
Theorem list_all_returns_the_scan rt w event items count :
  isGet event ->
  truthy (ticketOf event) = false ->
  asksForAll event = true ->
  db_scan w = Return (items, count) ->
  exists r,
    handler rt w event = Return r /\
    answers rt r 200 (listPayload items count).
Proof.
  intros Hget Hno Hall Hscan.
  exists (createResponse rt 200 (listPayload items count)).
  split; [|repeat split].
  rewrite (handler_GET _ _ _ Hget), Hno, Hall.
  unfold listAll. rewrite Hscan. reflexivity.
Qed.

Lemma list_all_returns_the_scan_witness :
  exists r,
    handler Fixtures.rt Fixtures.apiWorld ApiFixtures.listInvoices = Return r /\
    answers Fixtures.rt r 200
      (listPayload (JArr [JObj Fixtures.storedInvoice] ∅) (JNum (Number_of_nat 1))).
Proof.
  apply (list_all_returns_the_scan Fixtures.rt Fixtures.apiWorld ApiFixtures.listInvoices);
    reflexivity.
Defined.

(** X4: a GET that carries no ticket id and does not ask for the list
    is answered with status 400, the fixed headers and the serialization
    of the message naming the two supported shapes, in every world. *)
Theorem other_shapes_are_bad_requests rt event :
  isGet event ->
  truthy (ticketOf event) = false ->
  asksForAll event = false ->
  exists r,
    answers rt r 400 badRequestPayload /\
    forall w, handler rt w event = Return r.
Proof.
  intros Hget Hno Hall. exists (createResponse rt 400 badRequestPayload).
  split; [repeat split|].
  intros w. rewrite (handler_GET _ _ _ Hget), Hno, Hall. reflexivity.
Qed.

Lemma other_shapes_are_bad_requests_witness :
  exists r,
    answers Fixtures.rt r 400 badRequestPayload /\
    forall w, handler Fixtures.rt w ApiFixtures.getElsewhere = Return r.
Proof.
  apply (other_shapes_are_bad_requests Fixtures.rt ApiFixtures.getElsewhere);
    reflexivity.
Defined.

(** X5: a failure of the store is answered, not raised: when the read
    of a lookup fails, or the scan of a listing fails, the response has
    status 500, the fixed headers, and for body the serialization of the
    generic message and, as details, the message of the error the store
    threw. *)
Theorem store_failure_is_server_error rt w event e :
  isGet event ->
  (truthy (ticketOf event) = true /\ db_get_fault w (ticketOf event) = Some e) \/
  (truthy (ticketOf event) = false /\ asksForAll event = true /\ db_scan w = Throw e) ->
  exists r,
    handler rt w event = Return r /\
    answers rt r 500 (serverErrorPayload e).
Proof.
  intros Hget Hfail. exists (createResponse rt 500 (serverErrorPayload e)).
  split; [|repeat split].
  destruct Hfail as [[Ht Hf]|(Ht & Hall & Hscan)]; rewrite (handler_GET _ _ _ Hget), Ht.
  - unfold lookupById, db_get. rewrite Hf. reflexivity.
  - rewrite Hall. unfold listAll. rewrite Hscan. reflexivity.
Qed.

Lemma store_failure_is_server_error_witness :
  (exists r,
     handler Fixtures.rt ApiFixtures.failingApiWorld (Fixtures.getInvoice "INV-42") = Return r /\
     answers Fixtures.rt r 500 (serverErrorPayload ApiFixtures.throttled)) /\
  (exists r,
     handler Fixtures.rt ApiFixtures.failingApiWorld ApiFixtures.listInvoices = Return r /\
     answers Fixtures.rt r 500 (serverErrorPayload ApiFixtures.throttled)).
Proof.
  split.
  - apply (store_failure_is_server_error Fixtures.rt ApiFixtures.failingApiWorld
             (Fixtures.getInvoice "INV-42") ApiFixtures.throttled).
    + reflexivity.
    + left. split; reflexivity.
  - apply (store_failure_is_server_error Fixtures.rt ApiFixtures.failingApiWorld
             ApiFixtures.listInvoices ApiFixtures.throttled).
    + reflexivity.
    + right. repeat split; reflexivity.
Defined.



End QueryServiceShapes.

(** ** The Document Extractor: other payloads, other failures *)

Section ExtractorEdges.
Import JS Backend BackendSpec TableSpec.

(** X7: whatever the [try] block of the extractor throws (the error of
    the backend, of the structure check, of the decoding, a TypeError),
    the caller gets the ReferenceError raised by the [catch] block on its
    unbound identifier [result]; the state is the one before the call. *)
Theorem catch_replaces_every_error rt w pdfBuffer s3Bucket s3Key st err st1 :
  GEMINI_API_KEY w <> [] ->
  tryBlock rt w pdfBuffer s3Bucket s3Key st = (Throw err, st1) ->
  processPDFWithGemini rt w pdfBuffer s3Bucket s3Key st
  = (Throw (ReferenceError rt (lit "result is not defined")), st).
Proof.
  intros Hkey Ht.
  pose proof (tryBlock_state _ _ _ _ _ _ _ _ Ht) as Hs. cbn in Hs. subst st1.
  unfold processPDFWithGemini. rewrite (modelInstance_Some _ Hkey).
  unfold tryCatch. rewrite Ht. unfold liftR. rewrite catchBlock_throws. reflexivity.
Qed.

Lemma catch_replaces_every_error_witness :
  processPDFWithGemini Fixtures.rt Fixtures.configured [Byte.x03]
    (JStr (lit "attachments")) (lit "inbox/garbled.pdf") Fixtures.st0
  = (Throw (ReferenceError Fixtures.rt (lit "result is not defined")), Fixtures.st0).
Proof.
  apply (catch_replaces_every_error Fixtures.rt Fixtures.configured [Byte.x03]
           (JStr (lit "attachments")) (lit "inbox/garbled.pdf") Fixtures.st0
           (Error Fixtures.rt (lit "Failed to parse JSON response from Gemini AI."))
           Fixtures.st0).
  - discriminate.
  - reflexivity.
Defined.

(** X8: the extractor hands nothing to the table, and reads the clock
    once when it returns and not at all when it throws. *)
Theorem extraction_never_writes rt w pdfBuffer s3Bucket s3Key st :
  let run := processPDFWithGemini rt w pdfBuffer s3Bucket s3Key st in
  attempted run.2 = attempted st /\
  stored run.2 = stored st /\
  reads run.2 = match run.1 with
                | Return _ => S (reads st)
                | Throw _ => reads st
                end.
Proof.
  cbv zeta.
  destruct (processPDFWithGemini rt w pdfBuffer s3Bucket s3Key st) as [r st'] eqn:Hx.
  pose proof (extraction_state _ _ _ _ _ _ _ _ Hx) as Hs.
  destruct r as [v|e]; cbn [fst snd].
  - destruct Hs as [-> _]. repeat split.
  - subst st'. repeat split.
Qed.

(** X9: a payload that decodes to [null] or to a primitive (a number, a
    string, a boolean) makes the extractor throw: the first assignment
    to the decoded value throws in strict code, and the [catch] block
    turns it into its ReferenceError. *)
Theorem primitive_payload_fails rt w pdfBuffer s3Bucket s3Key st result resp jsonString v :
  GEMINI_API_KEY w <> [] ->
  generateContent w pdfBuffer = Return result ->
  response result = Some resp ->
  candidatesInvalid rt resp = Return false ->
  text resp = Return jsonString ->
  JSON_parse rt jsonString = Return v ->
  isPrimitive v ->
  processPDFWithGemini rt w pdfBuffer s3Bucket s3Key st
  = (Throw (ReferenceError rt (lit "result is not defined")), st).
Proof.
  intros Hkey Hgen Hresp Hvalid Htext Hparse Hprim.
  assert (Ht : exists e, tryBlock rt w pdfBuffer s3Bucket s3Key st = (Throw e, st)).
  { unfold tryBlock, bind, liftR, tryCatch.
    rewrite Hgen, Hresp, Hvalid, Htext, Hparse.
    destruct v; cbn [isPrimitive] in Hprim; try contradiction; cbn [setProp]; eauto. }
  destruct Ht as [e Ht].
  exact (catch_replaces_every_error _ _ _ _ _ _ _ _ Hkey Ht).
Qed.

Lemma primitive_payload_fails_witness :
  processPDFWithGemini TableFixtures.rt (TableFixtures.answering (lit "null")) [Byte.x01]
    (JStr (lit "attachments")) (lit "inbox/null.pdf") Fixtures.st0
  = (Throw (ReferenceError TableFixtures.rt (lit "result is not defined")), Fixtures.st0).
Proof.
  apply (primitive_payload_fails TableFixtures.rt (TableFixtures.answering (lit "null"))
           [Byte.x01] (JStr (lit "attachments")) (lit "inbox/null.pdf") Fixtures.st0
           (Fixtures.answerWith (Return (lit "null")))
           {| candidates :=
                JArr [object [(lit "content",
                               object [(lit "parts",
                                        JArr [object [(lit "text", JStr (lit "..."))]] ∅)])]]
                     ∅;
              text := Return (lit "null");
              promptFeedback := JUndefined |}
           (lit "null") JNull).
  - discriminate.
  - reflexivity.
  - reflexivity.
  - reflexivity.
  - reflexivity.
  - reflexivity.
  - exact I.
Defined.

(** X10: a payload that decodes to an array is accepted: the array is
    returned with its elements as they were and the four fields set as
    named properties beside them, its other named properties unchanged. *)
Theorem array_payload_is_returned rt w pdfBuffer s3Bucket s3Key st result resp jsonString
    elems props :
  GEMINI_API_KEY w <> [] ->
  generateContent w pdfBuffer = Return result ->
  response result = Some resp ->
  candidatesInvalid rt resp = Return false ->
  text resp = Return jsonString ->
  JSON_parse rt jsonString = Return (JArr elems props) ->
  exists props',
    processPDFWithGemini rt w pdfBuffer s3Bucket s3Key st
    = (Return (JArr elems props'), tick st) /\
    props' !! lit "S3Bucket" = Some s3Bucket /\
    props' !! lit "S3Key" = Some (JStr s3Key) /\
    props' !! lit "processingEngine" = Some (JStr (lit "Gemini-1.5-Flash-Latest")) /\
    props' !! lit "extractionTimestamp" = Some (JStr (toISOString w (clock w (reads st)))) /\
    (forall k, ~ In k addedFields -> props' !! k = props !! k).
Proof.
  intros Hkey Hgen Hresp Hvalid Htext Hparse.
  exists (<[lit "extractionTimestamp" := JStr (toISOString w (clock w (reads st)))]>
           (<[lit "processingEngine" := JStr (lit "Gemini-1.5-Flash-Latest")]>
              (<[lit "S3Key" := JStr s3Key]> (<[lit "S3Bucket" := s3Bucket]> props)))).
  split.
  - unfold processPDFWithGemini. rewrite (modelInstance_Some _ Hkey).
    unfold tryCatch, tryBlock, bind, liftR.
    rewrite Hgen, Hresp, Hvalid, Htext, Hparse.
    reflexivity.
  - repeat split.
    + rewrite !lookup_insert_ne by (vm_compute; discriminate). apply lookup_insert_eq.
    + rewrite !lookup_insert_ne by (vm_compute; discriminate). apply lookup_insert_eq.
    + rewrite !lookup_insert_ne by (vm_compute; discriminate). apply lookup_insert_eq.
    + apply lookup_insert_eq.
    + intros k Hk. unfold addedFields in Hk. cbn [In] in Hk.
      rewrite !lookup_insert_ne by (intros E; apply Hk; rewrite E; tauto).
      reflexivity.
Qed.

Lemma array_payload_is_returned_witness :
  exists props',
    processPDFWithGemini TableFixtures.rt (TableFixtures.answering (lit "[]")) [Byte.x01]
      (JStr (lit "attachments")) (lit "inbox/list.pdf") Fixtures.st0
    = (Return (JArr [] props'), tick Fixtures.st0) /\
    props' !! lit "S3Key" = Some (JStr (lit "inbox/list.pdf")).
Proof.
  destruct (array_payload_is_returned TableFixtures.rt (TableFixtures.answering (lit "[]"))
              [Byte.x01] (JStr (lit "attachments")) (lit "inbox/list.pdf") Fixtures.st0
              (Fixtures.answerWith (Return (lit "[]")))
              {| candidates :=
                   JArr [object [(lit "content",
                                  object [(lit "parts",
                                           JArr [object [(lit "text", JStr (lit "..."))]] ∅)])]]
                        ∅;
                 text := Return (lit "[]");
                 promptFeedback := JUndefined |}
              (lit "[]") [] ∅)
    as (props' & Hrun & _ & Hkey & _).
  - discriminate.
  - reflexivity.
  - reflexivity.
  - reflexivity.
  - reflexivity.
  - reflexivity.
  - exists props'. split; [exact Hrun | exact Hkey].
Defined.

End ExtractorEdges.

(** ** The store wrapper and the writes of the orchestrator *)

Section TableWrites.
Import JS Backend BackendSpec TableSpec.

(** X11: [saveToDynamo], handed an object: when the table refuses it,
    the very error of the table is thrown again and the table is left as
    it was; when the table takes it, the item is stored and the result is
    [{ success: true, id }] with the item's TicketId for id, or its
    invoiceId when it has no TicketId.  Either way the put was attempted
    once. *)
Theorem saveToDynamo_rethrows_or_stores rt w props st :
  let item := JObj props in
  let st' := (saveToDynamo rt w item st).2 in
  attempted st' = attempted st ++ [item] /\
  (forall e, db_put_fault w item = Some e ->
     saveToDynamo rt w item st = (Throw e, st') /\ stored st' = stored st) /\
  (db_put_fault w item = None ->
     saveToDynamo rt w item st
     = (Return (object [ (lit "success", JBool true);
                         (lit "id", orElse (getOwn item (lit "TicketId"))
                                      (getOwn item (lit "invoiceId"))) ]), st') /\
     stored st' = stored st ++ [item]).
Proof.
  cbv zeta. rewrite saveToDynamo_object. cbn [snd].
  split; [reflexivity|]. split.
  - intros e He. unfold afterPut. rewrite He. split; reflexivity.
  - intros Hok. unfold afterPut. rewrite Hok. split; [|reflexivity].
    unfold orElse. destruct (truthy (getOwn (JObj props) (lit "TicketId"))); reflexivity.
Qed.

Lemma saveToDynamo_rethrows_or_stores_witness :
  saveToDynamo Fixtures.rt TableFixtures.refusingInvoices
    (object [(lit "invoiceId", JStr (lit "INV-42"))]) Fixtures.st0
  = (Throw TableFixtures.conditionFailed,
     (saveToDynamo Fixtures.rt TableFixtures.refusingInvoices
        (object [(lit "invoiceId", JStr (lit "INV-42"))]) Fixtures.st0).2) /\
  stored (saveToDynamo Fixtures.rt TableFixtures.refusingInvoices
            (object [(lit "invoiceId", JStr (lit "INV-42"))]) Fixtures.st0).2
  = stored Fixtures.st0.
Proof.
  apply (proj1 (proj2 (saveToDynamo_rethrows_or_stores Fixtures.rt
                         TableFixtures.refusingInvoices
                         (<[lit "invoiceId" := JStr (lit "INV-42")]> ∅) Fixtures.st0))
           TableFixtures.conditionFailed).
  reflexivity.
Defined.

(** *** Composing writes *)

Lemma Writes_nil w st st' :
  attempted st' = attempted st -> stored st' = stored st -> Writes w st st' [].
Proof.
  intros Ha Hs. unfold Writes. cbn [List.filter]. rewrite !app_nil_r. auto.
Qed.

Lemma Writes_app w st st1 st2 l1 l2 :
  Writes w st st1 l1 -> Writes w st1 st2 l2 -> Writes w st st2 (l1 ++ l2).
Proof.
  intros (Ha1 & Hs1 & Hf1) (Ha2 & Hs2 & Hf2). unfold Writes.
  rewrite Ha2, Ha1, Hs2, Hs1, List.filter_app, <- !app_assoc.
  repeat split. apply Forall_app. auto.
Qed.

Lemma Writes_afterPut w item st st2 :
  hasTicket item -> attempted st2 = attempted st -> stored st2 = stored st ->
  Writes w st (afterPut w item st2) [item].
Proof.
  intros Ht Ha Hs. unfold Writes, afterPut, accepted. cbn [attempted stored List.filter].
  rewrite Ha, Hs. destruct (db_put_fault w item); rewrite ?app_nil_r; repeat split; auto.
Qed.

Lemma errorRecordAt_hasTicket w bucket key o e st :
  hasTicket (errorRecordAt w bucket key o e st).
Proof. reflexivity. Qed.

(** What the statements after the fetch leave behind: nothing, or the
    one invoice record handed to the table. *)
Lemma afterFetch_cases rt w bucket key o st r st1 :
  afterFetch rt w bucket key o st = (r, st1) ->
  (exists e, r = Throw e /\ attempted st1 = attempted st /\ stored st1 = stored st) \/
  (exists item st2,
     hasTicket (JObj item) /\
     attempted st2 = attempted st /\ stored st2 = stored st /\
     st1 = afterPut w (JObj item) st2 /\
     match db_put_fault w (JObj item) with
     | Some e => r = Throw e
     | None => exists out, r = Return out /\ success out = true /\ Backend.key out = key /\
                           ticketId out = getOwn (JObj item) (lit "TicketId")
     end).
Proof.
  unfold afterFetch. destruct (Body o) as [pdf|]; [|intros [= <- <-]; left; eauto].
  unfold bind at 1.
  destruct (processPDFWithGemini rt w pdf bucket key st) as [[ext|e] st0] eqn:Hx;
    pose proof (extraction_state _ _ _ _ _ _ _ _ Hx) as Hs; cbn in Hs.
  2:{ subst st0. intros [= <- <-]. left. eauto. }
  destruct Hs as [-> Hshape]. cbn [fst default].
  unfold bind at 1.
  destruct (itemToSave rt w ext key (tick st)) as [ri st2] eqn:Hi.
  pose proof Hi as Hi'. rewrite (itemToSave_run _ _ _ _ _ Hshape) in Hi'.
  assert (Hitem : exists t, truthy t = true /\
            ri = Return (JObj (<[lit "TicketId" := t]> (spread ext))) /\
            attempted st2 = attempted st /\ stored st2 = stored st).
  { destruct (truthy (getOwn ext (lit "invoiceId"))) eqn:Hinv;
      injection Hi' as <- <-; eexists; repeat split; try reflexivity. exact Hinv. }
  destruct Hitem as (t & Ht & -> & Ha & Hst).
  unfold bind at 1. rewrite saveToDynamo_object.
  intros Hr. right. exists (<[lit "TicketId" := t]> (spread ext)), st2.
  split; [unfold hasTicket; cbn [getOwn]; rewrite lookup_insert_eq; exact Ht|].
  split; [exact Ha|]. split; [exact Hst|].
  destruct (db_put_fault w _) as [e|]; cbv beta iota in Hr |- *.
  - injection Hr as <- <-. split; reflexivity.
  - unfold bind, liftR, ret in Hr. cbn [getProp] in Hr. cbv beta iota in Hr.
    injection Hr as <- <-.
    split; [reflexivity|]. eexists. repeat split.
Qed.

(** Every run of the callback, from its [try] on: it returns, and what
    it handed to the table is one record, or the invoice record the table
    refused followed by one Error Record. *)
Lemma processObject_cases rt w bucket key st :
  exists out st' l,
    processObject rt w bucket key st = (Return out, st') /\
    Backend.key out = key /\
    Writes w st st' l /\
    (length l = 1 \/ length l = 2) /\
    length (List.filter (accepted w) l) <= 1 /\
    (exists item, last l = Some item /\ getOwn item (lit "TicketId") = ticketId out) /\
    (success out = false ->
     exists o e stx,
       last l = Some (errorRecordAt w bucket key o e stx) /\
       error out = Some (message e) /\
       match s3_getObject w bucket key with
       | Throw _ => o = None
       | Return obj => o = Some obj
       end).
Proof.
  unfold processObject.
  destruct (s3_getObject w bucket key) as [o|e] eqn:Hf.
  - unfold tryCatch.
    destruct (afterFetch rt w bucket key o st) as [r st1] eqn:Ha.
    destruct (afterFetch_cases _ _ _ _ _ _ _ _ Ha)
      as [(e & -> & Hat & Hst)|(item & st2 & Hticket & Hat & Hst & -> & Hput)].
    + rewrite onFailure_run.
      eexists _, _, [_]. split; [reflexivity|]. split; [reflexivity|].
      split; [apply Writes_afterPut; [apply errorRecordAt_hasTicket | exact Hat | exact Hst]|].
      split; [left; reflexivity|].
      split; [cbn [List.filter]; destruct (accepted w _); cbn; lia|].
      split; [eexists; split; reflexivity|].
      intros _. eexists (Some o), e, st1. repeat split.
    + destruct (db_put_fault w (JObj item)) as [e|] eqn:Hfault.
      * subst r. rewrite onFailure_run.
        eexists _, _, [JObj item; _]. split; [reflexivity|]. split; [reflexivity|].
        split.
        { apply (Writes_app w st (afterPut w (JObj item) st2) _ [JObj item] [_]).
          - apply Writes_afterPut; assumption.
          - apply Writes_afterPut; [apply errorRecordAt_hasTicket | reflexivity | reflexivity]. }
        split; [right; reflexivity|].
        split.
        { cbn [List.filter]. unfold accepted at 1. rewrite Hfault.
          destruct (accepted w _); cbn; lia. }
        split; [eexists; split; reflexivity|].
        intros _. eexists (Some o), e, _. repeat split.
      * destruct Hput as (out & -> & Hs & Hk & Ht).
        eexists out, _, [JObj item]. split; [reflexivity|]. split; [exact Hk|].
        split; [apply Writes_afterPut; assumption|].
        split; [left; reflexivity|].
        split; [cbn [List.filter]; destruct (accepted w _); cbn; lia|].
        split; [eexists; split; [reflexivity | symmetry; exact Ht]|].
        intros Hfalse. congruence.
  - rewrite onFailure_run.
    eexists _, _, [_]. split; [reflexivity|]. split; [reflexivity|].
    split; [apply Writes_afterPut; [apply errorRecordAt_hasTicket | reflexivity | reflexivity]|].
    split; [left; reflexivity|].
    split; [cbn [List.filter]; destruct (accepted w _); cbn; lia|].
    split; [eexists; split; reflexivity|].
    intros _. eexists None, e, st. repeat split.
Qed.

End TableWrites.

Section Orchestration.
Import JS Backend BackendSpec TableSpec.

Lemma last_of_writes w st st' l item :
  Writes w st st' l -> last l = Some item -> last (attempted st') = Some item.
Proof. intros (Ha & _) Hl. rewrite Ha, last_app, Hl. reflexivity. Qed.

(** X12: whatever happens to an item, the callback returns an outcome
    whose ticketId is the TicketId of the last record it handed to the
    table, and that TicketId is a value JavaScript takes for true: the
    ticket reported for an item is the key under which its record, or its
    Error Record, was written. *)
Theorem outcome_ticket_is_last_write rt w bucket key st :
  exists out st' item,
    processObject rt w bucket key st = (Return out, st') /\
    last (attempted st') = Some item /\
    getOwn item (lit "TicketId") = ticketId out /\
    hasTicket item.
Proof.
  destruct (processObject_cases rt w bucket key st)
    as (out & st' & l & Hrun & _ & Hw & _ & _ & (item & Hlast & Ht) & _).
  exists out, st', item. split; [exact Hrun|].
  split; [eapply last_of_writes; eassumption|]. split; [exact Ht|].
  destruct Hw as (_ & _ & Hall).
  rewrite Forall_forall in Hall. apply Hall, last_Some_elem_of, Hlast.
Qed.

(** X13: an item reported as failed, for whatever reason (fetch,
    extraction or a refused invoice record), leaves an Error Record as
    its last write: Status "Error-ProcessingFailed", the TicketId and the
    error message of the outcome, and for FileSize and FileContentType
    the length and content type of the fetched object (null when they are
    missing or falsy), or null when the fetch itself failed. *)
Theorem failed_outcome_has_error_record rt w bucket key st out st' :
  processObject rt w bucket key st = (Return out, st') ->
  success out = false ->
  exists record msg,
    last (attempted st') = Some record /\
    error out = Some msg /\
    getOwn record (lit "Status") = JStr (lit "Error-ProcessingFailed") /\
    getOwn record (lit "ErrorDetails") = JStr msg /\
    getOwn record (lit "TicketId") = ticketId out /\
    getOwn record (lit "S3Key") = JStr key /\
    match s3_getObject w bucket key with
    | Throw _ =>
        getOwn record (lit "FileSize") = JNull /\
        getOwn record (lit "FileContentType") = JNull
    | Return o =>
        getOwn record (lit "FileSize") = orNull (ContentLength o) /\
        getOwn record (lit "FileContentType") = orNull (ContentType o)
    end.
Proof.
  intros Hrun Hfail.
  destruct (processObject_cases rt w bucket key st)
    as (out' & st'' & l & Hrun' & _ & Hw & _ & _ & (item & Hlast & Ht) & Hrec).
  rewrite Hrun in Hrun'. injection Hrun' as <- <-.
  destruct (Hrec Hfail) as (o & e & stx & Hlast' & Herr & Ho).
  rewrite Hlast in Hlast'. injection Hlast' as ->.
  exists (errorRecordAt w bucket key o e stx), (message e).
  split; [eapply last_of_writes; eassumption|].
  split; [exact Herr|]. split; [reflexivity|]. split; [reflexivity|].
  split; [exact Ht|]. split; [reflexivity|].
  destruct (s3_getObject w bucket key); subst o; split; reflexivity.
Qed.

Lemma failed_outcome_has_error_record_witness :
  exists record,
    last (attempted (processObject Fixtures.rt Fixtures.configured (JStr (lit "attachments"))
                       (lit "inbox/gone.pdf") Fixtures.st0).2) = Some record /\
    getOwn record (lit "ErrorDetails") = JStr (lit "The specified key does not exist.") /\
    getOwn record (lit "FileSize") = JNull.
Proof.
  destruct (failed_outcome_has_error_record Fixtures.rt Fixtures.configured
              (JStr (lit "attachments")) (lit "inbox/gone.pdf") Fixtures.st0
              {| success := false; key := lit "inbox/gone.pdf";
                 error := Some (lit "The specified key does not exist.");
                 ticketId := JStr (lit "error-inbox/gone.pdf-1700000000000") |}
              (processObject Fixtures.rt Fixtures.configured (JStr (lit "attachments"))
                 (lit "inbox/gone.pdf") Fixtures.st0).2)
    as (record & msg & Hlast & Herr & _ & Hdetails & _ & _ & Hsize).
  - vm_compute. reflexivity.
  - reflexivity.
  - exists record. split; [exact Hlast|]. injection Herr as <-.
    split; [exact Hdetails|]. exact (proj1 Hsize).
Defined.

(** X14: when the table refuses the invoice record of an item that was
    fetched and extracted, the item is reported as failed with the
    message of the table's error, and two writes were attempted: the
    refused invoice record, then an Error Record that carries that
    message; of the two the table can only hold the Error Record. *)
Theorem refused_invoice_becomes_failed_item rt w bucket key st o pdfBuffer extracted item st2 e :
  s3_getObject w bucket key = Return o ->
  Body o = Some pdfBuffer ->
  processPDFWithGemini rt w pdfBuffer bucket key st = (Return extracted, tick st) ->
  itemToSave rt w extracted key (tick st) = (Return item, st2) ->
  db_put_fault w item = Some e ->
  let record := errorRecordAt w bucket key (Some o) e st2 in
  let st' := afterPut w record (tick (tick (afterPut w item st2))) in
  processObject rt w bucket key st
  = (Return {| success := false; key := key; error := Some (message e);
               ticketId := JStr (errorTicket w key st2) |}, st') /\
  attempted st' = attempted st ++ [item; record] /\
  stored st' = stored st ++ List.filter (accepted w) [record] /\
  getOwn record (lit "ErrorDetails") = JStr (message e) /\
  getOwn record (lit "Status") = JStr (lit "Error-ProcessingFailed").
Proof.
  intros Hf Hb Hx Hi Hput record st'.
  pose proof (extraction_state _ _ _ _ _ _ _ _ Hx) as [_ Hshape].
  pose proof Hi as Hi'. rewrite (itemToSave_run _ _ _ _ _ Hshape) in Hi'.
  assert (Hitem : (exists props, item = JObj props) /\
                  attempted st2 = attempted st /\ stored st2 = stored st).
  { destruct (truthy (getOwn extracted (lit "invoiceId")));
      injection Hi' as <- <-; (split; [eauto|split; reflexivity]). }
  destruct Hitem as ([props ->] & Ha & Hs).
  split; [|split; [|split; [|split; reflexivity]]].
  - unfold processObject. rewrite Hf. unfold tryCatch, afterFetch. rewrite Hb.
    unfold bind at 1. rewrite Hx. unfold bind at 1. rewrite Hi.
    unfold bind at 1. rewrite saveToDynamo_object, Hput.
    rewrite onFailure_run. reflexivity.
  - subst st'. unfold afterPut. cbn [attempted tick]. rewrite Ha, <- app_assoc. reflexivity.
  - subst st'. unfold afterPut, accepted. cbn [stored tick List.filter]. rewrite Hput, Hs.
    destruct (db_put_fault w record); rewrite ?app_nil_r; reflexivity.
Qed.

Lemma refused_invoice_becomes_failed_item_witness :
  exists item record,
    processObject Fixtures.rt TableFixtures.refusingInvoices (JStr (lit "attachments"))
      (lit "inbox/invoice 42.pdf") Fixtures.st0
    = (Return {| success := false; key := lit "inbox/invoice 42.pdf";
                 error := Some (message TableFixtures.conditionFailed);
                 ticketId := JStr (lit "error-inbox/invoice 42.pdf-1700000000001") |},
       {| reads := 3; attempted := [item; record]; stored := [record] |}) /\
    getOwn item (lit "TicketId") = JStr (lit "INV-42") /\
    getOwn record (lit "ErrorDetails") = JStr (message TableFixtures.conditionFailed).
Proof.
  pose (valueOf := fun r : Result JSValue =>
                     match r with Return v => v | Throw _ => JUndefined end).
  pose (extracted :=
          valueOf (processPDFWithGemini Fixtures.rt TableFixtures.refusingInvoices [Byte.x01]
                     (JStr (lit "attachments")) (lit "inbox/invoice 42.pdf") Fixtures.st0).1).
  pose (item :=
          valueOf (itemToSave Fixtures.rt TableFixtures.refusingInvoices extracted
                     (lit "inbox/invoice 42.pdf") (tick Fixtures.st0)).1).
  destruct (refused_invoice_becomes_failed_item Fixtures.rt TableFixtures.refusingInvoices
              (JStr (lit "attachments")) (lit "inbox/invoice 42.pdf") Fixtures.st0
              {| Body := Some [Byte.x01];
                 ContentLength := JNum (Number_of_nat 1);
                 ContentType := JStr (lit "application/pdf") |}
              [Byte.x01] extracted item (tick Fixtures.st0) TableFixtures.conditionFailed)
    as (Hrun & _ & _ & Hdetails & _).
  - reflexivity.
  - reflexivity.
  - vm_compute. reflexivity.
  - vm_compute. reflexivity.
  - vm_compute. reflexivity.
  - eexists item, _. split; [|split; [|exact Hdetails]].
    + rewrite Hrun. vm_compute. reflexivity.
    + vm_compute. reflexivity.
Defined.

(** *** The batch *)

Lemma pending_processRecord rt w records :
  exists items : list (JSValue * jsstring),
    pending (map (processRecord rt w) records)
    = map (fun bk => processObject rt w bk.1 bk.2) items /\
    (firstRejected (map (processRecord rt w) records) = None ->
     length items = length records).
Proof.
  induction records as [|record records (items & Hp & Hl)].
  - exists []. split; reflexivity.
  - cbn [map pending firstRejected].
    assert (Hpr : processRecord rt w record
                  = match bucketAndKey rt record with
                    | Return bk => Return (processObject rt w bk.1 bk.2)
                    | Throw e => Throw e
                    end) by reflexivity.
    rewrite !Hpr. clear Hpr.
    destruct (bucketAndKey rt record) as [bk|e].
    + exists (bk :: items). cbn [map length]. rewrite Hp. split; [reflexivity|].
      intros Hnone. rewrite (Hl Hnone). reflexivity.
    + exists items. split; [exact Hp | discriminate].
Qed.

Lemma runAll_writes rt w (items : list (JSValue * jsstring)) :
  forall st,
  exists results st' l,
    runAll (map (fun bk => processObject rt w bk.1 bk.2) items) st = (Return results, st') /\
    length results = length items /\
    Writes w st st' l /\
    length items <= length l <= 2 * length items /\
    length (List.filter (accepted w) l) <= length items.
Proof.
  induction items as [|bk items IH]; intros st.
  - exists [], st, []. split; [reflexivity|]. split; [reflexivity|].
    split; [apply Writes_nil; reflexivity|]. cbn. lia.
  - destruct (processObject_cases rt w bk.1 bk.2 st)
      as (out & st1 & l1 & Hrun & _ & Hw1 & Hlen & Hacc & _).
    destruct (IH st1) as (results & st' & l2 & Hrest & Hlr & Hw2 & Hl2 & Hacc2).
    exists (out :: results), st', (l1 ++ l2).
    split; [|split; [|split; [|split]]].
    + cbn [map runAll]. unfold bind at 1. rewrite Hrun. unfold bind at 1. rewrite Hrest.
      reflexivity.
    + cbn [length]. rewrite Hlr. reflexivity.
    + eapply Writes_app; eassumption.
    + rewrite length_app. cbn [length]. lia.
    + rewrite List.filter_app, length_app. cbn [length]. lia.
Qed.

(** The whole handler, on any event: where it ends, and with which
    writes. *)
Lemma processEmail_cases rt w event st :
  (exists e, processEmail rt w event st = (Throw e, st) /\
             forall elems props, getProp rt event (lit "Records") <> Return (JArr elems props)) \/
  (exists elems props e,
     getProp rt event (lit "Records") = Return (JArr elems props) /\
     firstRejected (map (processRecord rt w) elems) = Some e /\
     processEmail rt w event st
     = (Return {| statusCode := 500; body := criticalBody rt e |}, st)) \/
  (exists elems props results st' l,
     getProp rt event (lit "Records") = Return (JArr elems props) /\
     firstRejected (map (processRecord rt w) elems) = None /\
     processEmail rt w event st
     = (Return {| statusCode := 200; body := completedBody rt results |}, st') /\
     length results = length elems /\
     Writes w st st' l /\
     length elems <= length l <= 2 * length elems /\
     length (List.filter (accepted w) l) <= length elems).
Proof.
  destruct (getProp rt event (lit "Records")) as [records|e] eqn:Hrec.
  2:{ left. exists e. split; [|discriminate].
      unfold processEmail, bind, liftR. rewrite Hrec. reflexivity. }
  assert (Hother : (forall elems props, records <> JArr elems props) ->
                   exists e, processEmail rt w event st = (Throw e, st)).
  { intros Hno. unfold processEmail, bind, liftR. rewrite Hrec.
    destruct records; cbn [call_map]; eauto. destruct (Hno _ _ eq_refl). }
  destruct records as [| | b | n | s | elems props | props];
    try (left; destruct Hother as [e He]; [discriminate|];
         exists e; split; [exact He | discriminate]).
  clear Hother. right.
  assert (Hrun : processEmail rt w event st
                 = match firstRejected (map (processRecord rt w) elems) with
                   | Some e => (Return {| statusCode := 500; body := criticalBody rt e |}, st)
                   | None =>
                       match runAll (pending (map (processRecord rt w) elems)) st with
                       | (Return results, st') =>
                           (Return {| statusCode := 200;
                                      body := completedBody rt results |}, st')
                       | (Throw e, st') =>
                           (Return {| statusCode := 500; body := criticalBody rt e |}, st')
                       end
                   end).
  { unfold processEmail, bind, liftR. rewrite Hrec. cbn [call_map].
    unfold tryCatch, Promise_all, bind.
    destruct (firstRejected (map (processRecord rt w) elems)); [reflexivity|].
    destruct (runAll (pending (map (processRecord rt w) elems)) st) as [[results|e] st'];
      reflexivity. }
  destruct (firstRejected (map (processRecord rt w) elems)) as [e|] eqn:Hfirst.
  - left. exists elems, props, e. do 2 (split; [first [assumption | reflexivity]|]). exact Hrun.
  - right.
    destruct (pending_processRecord rt w elems) as (items & Hp & Hl).
    specialize (Hl Hfirst). rewrite Hp in Hrun.
    destruct (runAll_writes rt w items st) as (results & st' & l & Hr & Hlr & Hw & Hb & Ha).
    rewrite Hr in Hrun. exists elems, props, results, st', l.
    rewrite <- Hl. do 6 (split; [first [assumption | reflexivity]|]). exact Ha.
Qed.

(** X15: on every event, whatever the handler answers or throws, each
    record it handed to the table carries a TicketId that JavaScript
    takes for true (a non-empty string in particular), and the table
    gained exactly the handed records it did not refuse. *)
Theorem every_write_carries_a_ticket rt w event st :
  exists l, Writes w st (processEmail rt w event st).2 l.
Proof.
  destruct (processEmail_cases rt w event st)
    as [(e & -> & _)|[(elems & props & e & _ & _ & ->)
                     |(elems & props & results & st' & l & _ & _ & -> & _ & Hw & _)]].
  - exists []. apply Writes_nil; reflexivity.
  - exists []. apply Writes_nil; reflexivity.
  - exists l. exact Hw.
Qed.

(** X16: a batch of K records answered with status 200 made at least K
    and at most 2K writes (one record per item, and one more for an item
    whose invoice record the table refused), and the table gained at most
    K records. *)
Theorem batch_write_bounds rt w event records props st r st' :
  getProp rt event (lit "Records") = Return (JArr records props) ->
  processEmail rt w event st = (Return r, st') ->
  statusCode r = 200%Z ->
  exists l,
    Writes w st st' l /\
    length records <= length l <= 2 * length records /\
    length (List.filter (accepted w) l) <= length records.
Proof.
  intros Hrec Hrun Hok.
  destruct (processEmail_cases rt w event st)
    as [(e & He & _)|[(elems & props' & e & _ & _ & He)
                     |(elems & props' & results & st'' & l & Hrec' & _ & He & _ & Hw & Hb & Ha)]].
  - congruence.
  - rewrite Hrun in He. injection He as -> _. discriminate Hok.
  - rewrite Hrun in He. injection He as _ <-.
    rewrite Hrec in Hrec'. injection Hrec' as <- _.
    exists l. auto.
Qed.

Lemma batch_write_bounds_witness :
  exists l,
    Writes Fixtures.configured Fixtures.st0
      (processEmail Fixtures.rt Fixtures.configured (Fixtures.s3Event Fixtures.threeKeys)
         Fixtures.st0).2 l /\
    3 <= length l <= 6 /\
    length (List.filter (accepted Fixtures.configured) l) <= 3.
Proof.
  pose (run := processEmail Fixtures.rt Fixtures.configured
                 (Fixtures.s3Event Fixtures.threeKeys) Fixtures.st0).
  pose (r := {| statusCode := 200;
                body := match run.1 with
                        | Return r => body r
                        | Throw _ => []
                        end |}).
  apply (batch_write_bounds Fixtures.rt Fixtures.configured
           (Fixtures.s3Event Fixtures.threeKeys)
           (map Fixtures.s3Record Fixtures.threeKeys) ∅ Fixtures.st0 r run.2).
  - reflexivity.
  - vm_compute. reflexivity.
  - reflexivity.
Defined.

(** X17: an event whose [Records] member is missing or is not an array
    makes the handler throw (the invocation fails; no response is
    built), before the clock is read or anything is handed to the
    table. *)
Theorem event_without_records_is_rejected rt w event st :
  (forall elems props, getProp rt event (lit "Records") <> Return (JArr elems props)) ->
  exists e, processEmail rt w event st = (Throw e, st).
Proof.
  intros Hno.
  destruct (processEmail_cases rt w event st)
    as [(e & He & _)|[(elems & props & e & Hrec & _)
                     |(elems & props & results & st' & l & Hrec & _)]].
  - eauto.
  - destruct (Hno _ _ Hrec).
  - destruct (Hno _ _ Hrec).
Qed.

Lemma event_without_records_is_rejected_witness :
  exists e,
    processEmail Fixtures.rt Fixtures.configured TableFixtures.noRecords Fixtures.st0
    = (Throw e, Fixtures.st0).
Proof.
  apply (event_without_records_is_rejected Fixtures.rt Fixtures.configured
           TableFixtures.noRecords Fixtures.st0).
  intros elems props. vm_compute. discriminate.
Defined.




End Orchestration.

(** ** The Mail Ingestor: uploads and failures *)

Section IngestorRuns.
Import JS MailIngestor IngestorSpec IngestShapes.

(** Past the guards, the handler is the [try] block under its [catch]. *)
Lemma handler_on_mail_record rt w event record messageId sourceBucket sourceKey st :
  getPath rt event [lit "Records"; lit "0"] = Return record ->
  MailRecord rt record messageId sourceBucket sourceKey ->
  handler rt w event st
  = tryCatch (tryBlock rt w messageId sourceBucket sourceKey)
             (fun error => ret (failed error)) st.
Proof.
  intros Hrec (Hid & Htid & Hb & Ho & Hname & rawKey & Hkey & Hdec).
  unfold handler. rewrite bucket_name_set. cbn [negb]. rewrite Hrec.
  unfold bind at 1, liftR at 1. rewrite Hid, Htid. cbn [negb].
  pose proof (getOwn_truthy _ _ Hb) as Hs3.
  cbn [andChain]. rewrite Hs3, Hb, Ho. cbn [negb orb].
  rewrite Hkey, Hname. cbn [call_replace].
  unfold bind at 1, liftR at 1. unfold bind at 1, liftR at 1. rewrite Hdec.
  reflexivity.
Qed.

Lemma Promise_all_first_fault w requests st :
  Promise_all (map (uploadPromise w) requests) st
  = (match firstFault w requests with
     | Some e => Throw e
     | None => Return (map (fun _ => tt) requests)
     end, st).
Proof.
  unfold Promise_all.
  assert (Hnone : firstRejected (map (uploadPromise w) requests) = None)
    by (induction requests; [reflexivity | assumption]).
  rewrite Hnone. clear Hnone.
  induction requests as [|request requests IH]; [reflexivity|].
  cbn [map pending uploadPromise runAll firstFault].
  unfold bind at 1, liftR at 1.
  destruct (s3_putObject_fault w request); [reflexivity|].
  unfold bind at 1. fold (uploadPromise w). rewrite IH.
  destruct (firstFault w requests); reflexivity.
Qed.

Lemma firstFault_None w requests :
  firstFault w requests = None ->
  Forall (fun request => s3_putObject_fault w request = None) requests.
Proof.
  induction requests as [|request requests IH]; cbn [firstFault]; intros H.
  - constructor.
  - destruct (s3_putObject_fault w request) eqn:E; [discriminate|].
    constructor; [exact E | exact (IH H)].
Qed.

Lemma firstFault_Some w requests e :
  firstFault w requests = Some e ->
  exists request, In request requests /\ s3_putObject_fault w request = Some e.
Proof.
  induction requests as [|request requests IH]; cbn [firstFault]; intros H.
  - discriminate.
  - destruct (s3_putObject_fault w request) eqn:E.
    + injection H as ->. exists request. split; [left; reflexivity | exact E].
    + destruct (IH H) as (r & Hin & Hr). exists r. split; [right; exact Hin | exact Hr].
Qed.

(** X19: for a message that was fetched and parsed and has a sender and
    a recipient, the handler sends one upload per PDF attachment, in the
    order of the message and before it looks at any result, each to the
    attachment bucket under [attachments/<messageId>/<sanitized name>]
    with the body and content type of the attachment, and none for the
    other attachments.  It then answers 200 with the number of uploads
    when the store took them all, and 500 with the message of a refused
    upload otherwise: the uploads already sent are not undone. *)
Theorem handler_uploads_every_pdf_attachment rt w event record messageId sourceBucket sourceKey
    bytes mail st :
  getPath rt event [lit "Records"; lit "0"] = Return record ->
  MailRecord rt record messageId sourceBucket sourceKey ->
  s3_getObject w sourceBucket sourceKey = Return (Some bytes) ->
  simpleParser w (Buffer_toString_utf8 rt bytes) = Return mail ->
  from mail <> JUndefined -> from mail <> JNull ->
  to mail <> JUndefined -> to mail <> JNull ->
  exists requests response st',
    handler rt w event st = (Return response, st') /\
    calls st' = calls st ++ GetObject sourceBucket sourceKey :: map PutObject requests /\
    Forall2 (storesAttachment rt w messageId) (List.filter isPdf (attachments mail)) requests /\
    (Forall (fun request => s3_putObject_fault w request = None) requests /\
     response = uploaded rt messageId (length requests)
     \/
     exists request e,
       In request requests /\ s3_putObject_fault w request = Some e /\ response = failed e).
Proof.
  intros Hrec Hmail Hget Hparse Hf1 Hf2 Ht1 Ht2.
  destruct (uploadAll_run rt w messageId (attachments mail) []
              {| reads := reads st; calls := calls st ++ [GetObject sourceBucket sourceKey] |})
    as (requests & st' & Hrun & Hcalls & Hall).
  exists requests,
         (match firstFault w requests with
          | Some e => failed e
          | None => uploaded rt messageId (length requests)
          end), st'.
  split; [|split; [|split]].
  - rewrite (handler_on_mail_record _ _ _ _ _ _ _ _ Hrec Hmail).
    unfold tryCatch, tryBlock. unfold bind at 1, getObject at 1. rewrite Hget.
    unfold bind at 1, liftR at 1. cbn [bodyToString]. rewrite Hparse.
    unfold bind at 1, liftR at 1.
    unfold bind at 1, liftR at 1.
    rewrite (getProp_not_nullish rt (from mail)) by assumption.
    unfold bind at 1, liftR at 1.
    rewrite (getProp_not_nullish rt (to mail)) by assumption.
    unfold bind at 1. rewrite Hrun. cbn [app].
    rewrite length_map.
    destruct requests as [|request requests]; [reflexivity|].
    cbn [length Nat.ltb Nat.leb]. unfold bind at 1. unfold bind at 1.
    rewrite Promise_all_first_fault.
    destruct (firstFault w (request :: requests)); reflexivity.
  - rewrite Hcalls. cbn [calls]. rewrite <- app_assoc. reflexivity.
  - exact Hall.
  - destruct (firstFault w requests) as [e|] eqn:Hfault.
    + right. destruct (firstFault_Some _ _ _ Hfault) as (request & Hin & Hr).
      exists request, e. auto.
    + left. split; [exact (firstFault_None _ _ Hfault) | reflexivity].
Qed.

Lemma handler_uploads_every_pdf_attachment_witness :
  exists requests response st',
    handler Fixtures.rt IngestFixtures.refusingUploads Fixtures.mailEvent Fixtures.ingest0
    = (Return response, st') /\
    calls st' = calls Fixtures.ingest0
                ++ GetObject (JStr (lit "raw-mail")) (lit "emails/M1") :: map PutObject requests /\
    Forall2 (storesAttachment Fixtures.rt IngestFixtures.refusingUploads (JStr (lit "M1")))
      (List.filter isPdf (attachments IngestFixtures.twoPdfMail)) requests /\
    (Forall (fun request => s3_putObject_fault IngestFixtures.refusingUploads request = None)
       requests /\
     response = uploaded Fixtures.rt (JStr (lit "M1")) (length requests)
     \/
     exists request e,
       In request requests /\
       s3_putObject_fault IngestFixtures.refusingUploads request = Some e /\
       response = failed e).
Proof.
  apply (handler_uploads_every_pdf_attachment Fixtures.rt IngestFixtures.refusingUploads
           Fixtures.mailEvent Fixtures.mailRecord (JStr (lit "M1")) (JStr (lit "raw-mail"))
           (lit "emails/M1") [] IngestFixtures.twoPdfMail Fixtures.ingest0).
  - reflexivity.
  - repeat split; try reflexivity. exists (lit "emails/M1"). split; reflexivity.
  - reflexivity.
  - reflexivity.
  - discriminate.
  - discriminate.
  - discriminate.
  - discriminate.
Defined.

(** The run of that message: both uploads left, the first was refused. *)
Example refused_upload_run :
  handler Fixtures.rt IngestFixtures.refusingUploads Fixtures.mailEvent Fixtures.ingest0
  = (Return (failed IngestFixtures.accessDenied),
     {| reads := 1;
        calls := [ GetObject (JStr (lit "raw-mail")) (lit "emails/M1");
                   PutObject {| Bucket := lit "email-attachments-bucket-dev-1749037511789";
                                Key := lit "attachments/M1/invoice.pdf";
                                Body := content Fixtures.invoicePdf;
                                ContentType := lit "application/pdf" |};
                   PutObject {| Bucket := lit "email-attachments-bucket-dev-1749037511789";
                                Key := lit "attachments/M1/attachment-M1-1700000000000.pdf";
                                Body := content IngestFixtures.scanPdf;
                                ContentType := lit "application/pdf" |} ] |}).
Proof. vm_compute. reflexivity. Qed.

(** X20: when the raw message cannot be fetched, or cannot be parsed,
    the handler answers 500 with the message of that error; its one call
    to the object store is the fetch, and nothing is uploaded. *)
Theorem unreadable_message_is_answered rt w event record messageId sourceBucket sourceKey e st :
  getPath rt event [lit "Records"; lit "0"] = Return record ->
  MailRecord rt record messageId sourceBucket sourceKey ->
  s3_getObject w sourceBucket sourceKey = Throw e \/
  (exists bytes, s3_getObject w sourceBucket sourceKey = Return (Some bytes) /\
                 simpleParser w (Buffer_toString_utf8 rt bytes) = Throw e) ->
  handler rt w event st
  = (Return (failed e),
     {| reads := reads st; calls := calls st ++ [GetObject sourceBucket sourceKey] |}).
Proof.
  intros Hrec Hmail Hfail.
  rewrite (handler_on_mail_record _ _ _ _ _ _ _ _ Hrec Hmail).
  unfold tryCatch, tryBlock. unfold bind at 1, getObject at 1.
  destruct Hfail as [Hget|(bytes & Hget & Hparse)]; rewrite Hget; [reflexivity|].
  unfold bind at 1, liftR at 1. cbn [bodyToString]. rewrite Hparse. reflexivity.
Qed.

Lemma unreadable_message_is_answered_witness :
  handler Fixtures.rt IngestFixtures.missingMessage Fixtures.mailEvent Fixtures.ingest0
  = (Return (failed Fixtures.noSuchKey),
     {| reads := 0; calls := [GetObject (JStr (lit "raw-mail")) (lit "emails/M1")] |}).
Proof.
  apply (unreadable_message_is_answered Fixtures.rt IngestFixtures.missingMessage
           Fixtures.mailEvent Fixtures.mailRecord (JStr (lit "M1")) (JStr (lit "raw-mail"))
           (lit "emails/M1") Fixtures.noSuchKey Fixtures.ingest0).
  - reflexivity.
  - repeat split; try reflexivity. exists (lit "emails/M1"). split; reflexivity.
  - left. reflexivity.
Defined.

(** X21: a first record that passes both guards but whose object key is
    not a string, or is not URL-encoded, makes the handler throw: the key
    is decoded before the [try], so the error is not turned into a
    response; the object store is not called. *)
Theorem undecodable_key_is_rejected rt w event record e st :
  getPath rt event [lit "Records"; lit "0"] = Return record ->
  truthy (andChain record [lit "ses"; lit "mail"; lit "messageId"]) = true ->
  truthy (getOwn (getOwn record (lit "s3")) (lit "bucket")) = true ->
  truthy (getOwn (getOwn record (lit "s3")) (lit "object")) = true ->
  bindR (call_replace rt (getOwn (getOwn (getOwn record (lit "s3")) (lit "object")) (lit "key")))
        (decodeURIComponent rt) = Throw e ->
  handler rt w event st = (Throw e, st).
Proof.
  intros Hrec Hid Hb Ho Hkey.
  unfold handler. rewrite bucket_name_set. cbn [negb]. rewrite Hrec.
  unfold bind at 1, liftR at 1. rewrite Hid. cbn [negb].
  pose proof (getOwn_truthy _ _ Hb) as Hs3.
  cbn [andChain]. rewrite Hs3, Hb, Ho. cbn [negb orb].
  unfold bind at 1, liftR at 1.
  destruct (call_replace rt _) as [replaced|e']; cbn [bindR] in Hkey.
  - unfold bind at 1, liftR at 1. rewrite Hkey. reflexivity.
  - injection Hkey as ->. reflexivity.
Qed.

Lemma undecodable_key_is_rejected_witness :
  handler Fixtures.rt (Fixtures.ingestWorld Fixtures.addressedMail)
    IngestFixtures.badKeyEvent Fixtures.ingest0
  = (Throw (URIError Fixtures.rt (lit "URI malformed")), Fixtures.ingest0).
Proof.
  eapply (undecodable_key_is_rejected Fixtures.rt (Fixtures.ingestWorld Fixtures.addressedMail)
            IngestFixtures.badKeyEvent _ _ Fixtures.ingest0); reflexivity.
Defined.

Local Ltac caught :=
  eexists (failed _), _, [];
  split; [reflexivity | split; [reflexivity | left; eexists; reflexivity]].

(** Inside the [try], every failure is answered. *)
Lemma tryBlock_answers rt w messageId sourceBucket sourceKey st :
  exists response st' puts,
    tryCatch (tryBlock rt w messageId sourceBucket sourceKey)
             (fun error => ret (failed error)) st = (Return response, st') /\
    calls st' = calls st ++ GetObject sourceBucket sourceKey :: map PutObject puts /\
    ((exists e, response = failed e) \/
     response = uploaded rt messageId (length puts)).
Proof.
  unfold tryCatch, tryBlock. unfold bind at 1, getObject at 1.
  set (st1 := {| reads := reads st; calls := calls st ++ [GetObject sourceBucket sourceKey] |}).
  destruct (s3_getObject w sourceBucket sourceKey) as [[bytes|]|e];
    [| caught | caught].
  unfold bind at 1, liftR at 1. cbn [bodyToString].
  destruct (simpleParser w (Buffer_toString_utf8 rt bytes)) as [mail|e]; [| caught].
  unfold bind at 1, liftR at 1. unfold bind at 1, liftR at 1.
  destruct (getProp rt (from mail) (lit "text")) as [?|e]; [| caught].
  unfold bind at 1, liftR at 1.
  destruct (getProp rt (to mail) (lit "text")) as [?|e]; [| caught].
  destruct (uploadAll_run rt w messageId (attachments mail) [] st1)
    as (requests & st' & Hrun & Hcalls & _).
  unfold bind at 1. rewrite Hrun. cbn [app]. rewrite length_map.
  assert (Hst : calls st' = calls st ++ GetObject sourceBucket sourceKey :: map PutObject requests)
    by (rewrite Hcalls; subst st1; cbn [calls]; rewrite <- app_assoc; reflexivity).
  destruct requests as [|request requests].
  - exists (uploaded rt messageId 0), st', []. repeat split; [exact Hst | right; reflexivity].
  - cbn [length Nat.ltb Nat.leb]. unfold bind at 1. unfold bind at 1.
    rewrite Promise_all_first_fault.
    destruct (firstFault w (request :: requests)) as [e|].
    + exists (failed e), st', (request :: requests). repeat split; [exact Hst | left; eauto].
    + exists (uploaded rt messageId (S (length requests))), st', (request :: requests).
      repeat split; [exact Hst | right; reflexivity].
Qed.

(** X22: whatever the event, a run of the handler ends in one of five
    ways.  Before the [try] it throws or answers 400 for one of the two
    guards, and has not called the object store; after it, the answer is
    the 200 of a finished run or the 500 of the [catch] block, and the
    calls made are the fetch followed by uploads only. *)
Theorem handler_outcomes rt w event st :
  (exists e, handler rt w event st = (Throw e, st)) \/
  handler rt w event st = (Return invalidSes, st) \/
  handler rt w event st = (Return notFromS3, st) \/
  exists response st' sourceBucket sourceKey puts,
    handler rt w event st = (Return response, st') /\
    calls st' = calls st ++ GetObject sourceBucket sourceKey :: map PutObject puts /\
    ((exists e, response = failed e) \/
     exists messageId, response = uploaded rt messageId (length puts)).
Proof.
  remember (handler rt w event st) as run eqn:Hrun.
  unfold handler in Hrun. rewrite bucket_name_set in Hrun. cbn [negb] in Hrun.
  unfold bind at 1, liftR at 1 in Hrun.
  destruct (getPath rt event [lit "Records"; lit "0"]) as [record|e]; [| left; eauto].
  destruct (truthy (andChain record [lit "ses"; lit "mail"; lit "messageId"]));
    cbn [negb] in Hrun; [| right; left; exact Hrun].
  destruct (negb _ || negb _); [right; right; left; exact Hrun|].
  unfold bind at 1, liftR at 1 in Hrun.
  destruct (call_replace rt _) as [replaced|e]; [| left; eauto].
  unfold bind at 1, liftR at 1 in Hrun.
  destruct (decodeURIComponent rt replaced) as [sourceKey|e]; [| left; eauto].
  right; right; right.
  destruct (tryBlock_answers rt w (andChain record [lit "ses"; lit "mail"; lit "messageId"])
              (getOwn (getOwn (getOwn record (lit "s3")) (lit "bucket")) (lit "name"))
              sourceKey st) as (response & st' & puts & Hcaught & Hcalls & Hshape).
  exists response, st',
    (getOwn (getOwn (getOwn record (lit "s3")) (lit "bucket")) (lit "name")),
    sourceKey, puts.
  split; [rewrite Hrun; exact Hcaught | split; [exact Hcalls|]].
  destruct Hshape as [He | ->]; [left; exact He | right; eauto].
Qed.

(** X23: the answer "Server configuration error: Attachment bucket not
    set." of line 19 is never given, also when the environment names no
    bucket: the default of line 7 makes the test of line 17 fail. *)
Theorem configuration_error_is_unreachable rt w event st response st' :
  handler rt w event st = (Return response, st') ->
  Response_eqb response notConfigured = false.
Proof.
  intros Hrun.
  destruct (handler_outcomes rt w event st)
    as [(e & H)|[H|[H|(r & s & b & k & puts & H & _ & [(e & ->)|(m & ->)])]]];
    rewrite H in Hrun; try discriminate; injection Hrun as <- _; try reflexivity.
Qed.

Lemma configuration_error_is_unreachable_witness :
  handler Fixtures.rt (Fixtures.ingestWorld Fixtures.addressedMail)
    Fixtures.sesOnlyEvent Fixtures.ingest0 = (Return notFromS3, Fixtures.ingest0) /\
  Response_eqb notFromS3 notConfigured = false.
Proof.
  assert (Hrun : handler Fixtures.rt (Fixtures.ingestWorld Fixtures.addressedMail)
                   Fixtures.sesOnlyEvent Fixtures.ingest0
                 = (Return notFromS3, Fixtures.ingest0)) by (vm_compute; reflexivity).
  split; [exact Hrun|].
  exact (configuration_error_is_unreachable _ _ _ _ _ _ Hrun).
Defined.

End IngestorRuns.

Section Sanitization.
Import JS MailIngestor.

(** X24: a sanitized filename has the length of the original and only
    characters of [[a-zA-Z0-9_.-]]; in particular it holds no [/], so the
    object key stays in the folder of its message. *)
Theorem safeFilename_stays_in_class (filename : jsstring) :
  length (safeFilename filename) = length filename /\
  Forall (fun c => safeChar c = true) (safeFilename filename) /\
  includes (safeFilename filename) (lit "/") = false.
Proof.
  unfold safeFilename. split; [apply length_map|].
  induction filename as [|c s [IH1 IH2]]; [split; [constructor | reflexivity]|].
  cbn [map]. split.
  - constructor; [apply safeChar_replaced | exact IH1].
  - cbn [includes]. rewrite IH2, orb_false_r.
    pose proof (safeChar_replaced c) as Hc.
    destruct (if safeChar c then c else 95%N) as [|p] eqn:E; [reflexivity|].
    change (lit "/") with [47%N]. cbn [startsWith].
    destruct (N.eqb (N.pos p) 47) eqn:E47; [|reflexivity].
    apply N.eqb_eq in E47. rewrite E47 in Hc. discriminate.
Qed.

(** X25: sanitization leaves a filename unchanged exactly when all its
    characters are in [[a-zA-Z0-9_.-]]. *)
Theorem safeFilename_fixes_safe_names (filename : jsstring) :
  safeFilename filename = filename <-> Forall (fun c => safeChar c = true) filename.
Proof.
  unfold safeFilename. induction filename as [|c s IH]; [split; [constructor | reflexivity]|].
  cbn [map]. split.
  - intros H. injection H as Hc Hs. constructor; [|apply IH, Hs].
    destruct (safeChar c) eqn:E; [reflexivity|]. subst c. discriminate.
  - intros H. inversion H as [|? ? Hc Hs]; subst. rewrite Hc. f_equal. apply IH, Hs.
Qed.

End Sanitization.
